(** * Construction sales platform: product matching, scoring and analysis

    A shallow embedding of [src/services/productMatcher.js] and of
    [calculateShippingDays] from [src/utils/csvParser.js].

    Conventions of the embedding.
    - JavaScript numbers that the code only adds, subtracts and compares
      (prices, stock, lead times, warranty years, scores) are integers [Z].
    - A [Date] is its time value, the number of milliseconds since the epoch,
      as a [Z]; [setDate (getDate () + n)] moves the time value by [n] whole
      days (the local offset from UTC is taken constant over the interval).
    - Strings are [string]s of bytes; [trim] strips the ASCII white space.
    - Template strings pushed on the reason, warning, risk and
      recommendation arrays are constructors carrying the interpolated
      values.
    - A plain object used as a dictionary ([{}]) is the list of its own
      properties in insertion order, together with the property names it
      inherits from [Object.prototype]. *)

From Stdlib Require Import ZArith List String Ascii Bool Lia.
From Stdlib Require Import Sorting.Sorted Sorting.Permutation.
Import ListNotations.

Open Scope string_scope.
Open Scope list_scope.
Open Scope Z_scope.

(** ** JavaScript string and array helpers *)

Module Js.

(** [Array.prototype.includes] on an array of strings. *)
Definition includes (xs : list string) (x : string) : bool :=
  existsb (String.eqb x) xs.

(** [String.prototype.includes]: [needle] occurs in [hay] as a substring;
    the empty needle occurs in every string. *)
Fixpoint str_includes (hay needle : string) : bool :=
  if String.prefix needle hay then true
  else match hay with
       | EmptyString => false
       | String _ rest => str_includes rest needle
       end.

(** [s.split (sep)] for a one-character separator: never the empty list. *)
Fixpoint split (sep : ascii) (s : string) : list string :=
  match s with
  | EmptyString => [ EmptyString ]
  | String c rest =>
      if Ascii.eqb c sep then EmptyString :: split sep rest
      else match split sep rest with
           | [] => [ String c EmptyString ]
           | w :: ws => String c w :: ws
           end
  end.

Definition is_space (c : ascii) : bool :=
  let n := nat_of_ascii c in
  (Nat.eqb n 32 || (Nat.leb 9 n && Nat.leb n 13))%bool.

Fixpoint trim_start (s : string) : string :=
  match s with
  | EmptyString => EmptyString
  | String c rest => if is_space c then trim_start rest else s
  end.

(** White space at the end: a character is dropped when it is a space
    and everything after it has been dropped. *)
Fixpoint trim_end (s : string) : string :=
  match s with
  | EmptyString => EmptyString
  | String c rest =>
      match trim_end rest with
      | EmptyString => if is_space c then EmptyString else String c EmptyString
      | t => String c t
      end
  end.

Definition trim (s : string) : string := trim_end (trim_start s).

(** Truthiness of a string: the empty string is falsy. *)
Definition truthy (s : string) : bool := negb (String.eqb s "").

(** The idiom [s.split (';').map (x => x.trim ()).filter (x => x)]. *)
Definition semicolon_list (s : string) : list string :=
  filter truthy (map trim (split ";" s)).

End Js.

(** ** Shipping estimator ([src/utils/csvParser.js]) *)

Definition remoteStates : list string :=
  [ "AK"; "HI"; "ME"; "MT"; "WY"; "ND"; "SD" ].

(** The [regions] object literal, as its entries in insertion order. *)
Definition regions : list (string * list string) :=
  [ ("northeast", [ "ME"; "NH"; "VT"; "MA"; "RI"; "CT"; "NY"; "NJ"; "PA" ]);
    ("southeast", [ "MD"; "DE"; "VA"; "WV"; "NC"; "SC"; "GA"; "FL"; "KY";
                    "TN"; "AL"; "MS"; "LA"; "AR" ]);
    ("midwest", [ "OH"; "IN"; "IL"; "MI"; "WI"; "MN"; "IA"; "MO"; "ND"; "SD";
                  "NE"; "KS" ]);
    ("southwest", [ "TX"; "OK"; "NM"; "AZ" ]);
    ("west", [ "CA"; "NV"; "OR"; "WA"; "ID"; "UT"; "CO"; "WY"; "MT" ]);
    ("other", [ "AK"; "HI" ]) ].

(** One iteration of [for (const [region, states] of Object.entries (regions))]:
    the state is the pair [(warehouseRegion, destinationRegion)], [None]
    standing for [null]. *)
Definition regionStep (warehouseState destinationState : string)
  (acc : option string * option string) (entry : string * list string)
  : option string * option string :=
  let '(region, states) := entry in
  let wr := if Js.includes states warehouseState then Some region else fst acc in
  let dr := if Js.includes states destinationState then Some region else snd acc in
  (wr, dr).

Definition regionLoop (warehouseState destinationState : string)
  : option string * option string :=
  fold_left (regionStep warehouseState destinationState) regions (None, None).

(** [a === b] on values that are [null] or a string. *)
Definition region_eqb (a b : option string) : bool :=
  match a, b with
  | None, None => true
  | Some x, Some y => String.eqb x y
  | _, _ => false
  end.

Definition calculateShippingDays (warehouseState destinationState : string) : Z :=
  if String.eqb warehouseState destinationState then 2
  else
    let isWarehouseRemote := Js.includes remoteStates warehouseState in
    let isDestinationRemote := Js.includes remoteStates destinationState in
    let baseDays := 5 in
    let baseDays := if isWarehouseRemote then baseDays + 3 else baseDays in
    let baseDays := if isDestinationRemote then baseDays + 3 else baseDays in
    let '(warehouseRegion, destinationRegion) :=
      regionLoop warehouseState destinationState in
    let baseDays :=
      if (region_eqb warehouseRegion destinationRegion
          && negb (region_eqb warehouseRegion (Some "other")))%bool
      then baseDays - 2 else baseDays in
    Z.max baseDays 2.

(** ** Data model ([src/types/index.js]) *)

Record Product := {
  productId : string;
  productName : string;
  category : string;
  price : Z;
  stockQty : Z;
  leadTimeDays : Z;
  warehouseLocation : string;
  restrictedStates : string;
  applicableProjectTypes : string;
  certifications : string;
  ecoFriendly : string;
  recyclable : string;
  sustainableSource : string;
  warrantyYears : Z;
  installationDifficulty : string
}.

(** Optional fields are [option]s: [None] is an absent ([undefined])
    property.  [maxBudget] is falsy when absent or [0]. *)
Record ProjectSpecification := {
  projectType : string;
  location : string;
  maxBudget : option Z;
  projectStartDate : Z;
  projectEndDate : Z;
  requiredCategories : option (list string);
  requireCertifications : bool;
  requiredCertifications : option (list string);
  ecoFriendlyPreference : bool;
  sustainablePreference : bool;
  installationCapability : string
}.

Inductive Reason :=
| AvailableInLocation
| SuitableFor (projectType : string)
| HasCertifications (matched : nat)
| EcoFriendlyProduct
| SustainableSource
| InStock
| DIYFriendly
| ProfessionalInstallation
| Warranty (years : Z)
| CanDeliverBefore (days : Z).

Inductive Warning :=
| OutOfStock
| WillBeLate (days : Z).

(** The object returned by [checkTimeline]. *)
Record Timeline := {
  tl_estimatedShippingDays : Z;
  tl_totalLeadTime : Z;
  tl_estimatedDelivery : Z;
  tl_meetsTimeline : bool;
  tl_daysMargin : Z
}.

(** The object returned by [calculateMatchScore]: the timeline fields are
    spread into it. *)
Record ProductMatch := {
  product : Product;
  matchScore : Z;
  matchReasons : list Reason;
  warnings : list Warning;
  estimatedShippingDays : Z;
  totalLeadTime : Z;
  estimatedDelivery : Z;
  meetsTimeline : bool;
  daysMargin : Z
}.

(** ** Filters *)

Definition filterByLocation (products : list Product) (stateCode : string)
  : list Product :=
  filter (fun product =>
            if negb (Js.truthy (restrictedStates product)) then true
            else negb (Js.includes (Js.semicolon_list (restrictedStates product))
                         stateCode))
    products.

Definition filterByProjectType (products : list Product) (projectType : string)
  : list Product :=
  if negb (Js.truthy projectType) then products
  else filter (fun product =>
                 if negb (Js.truthy (applicableProjectTypes product)) then false
                 else Js.includes
                        (Js.semicolon_list (applicableProjectTypes product))
                        projectType)
         products.

Definition nonEmpty {A} (l : list A) : bool :=
  match l with [] => false | _ :: _ => true end.

(** [!categories || categories.length === 0] returns the input unchanged. *)
Definition filterByCategories (products : list Product)
  (categories : option (list string)) : list Product :=
  match categories with
  | None => products
  | Some cats =>
      if negb (nonEmpty cats) then products
      else filter (fun product => Js.includes cats (category product)) products
  end.

Definition filterByCertifications (products : list Product)
  (requiredCerts : option (list string)) : list Product :=
  match requiredCerts with
  | None => products
  | Some certs =>
      if negb (nonEmpty certs) then products
      else filter (fun product =>
                     if negb (Js.truthy (certifications product)) then false
                     else
                       let productCerts :=
                         Js.semicolon_list (certifications product) in
                       forallb (fun reqCert => Js.includes productCerts reqCert)
                         certs)
             products
  end.

(** The [preferences] argument of [filterByEcoPreferences]; a property the
    caller leaves out is [false]. *)
Record EcoPreferences := {
  pref_ecoFriendly : bool;
  pref_sustainable : bool;
  pref_recyclable : bool
}.

Definition filterByEcoPreferences (products : list Product)
  (preferences : EcoPreferences) : list Product :=
  let filtered := products in
  let filtered :=
    if pref_ecoFriendly preferences
    then filter (fun p => String.eqb (ecoFriendly p) "Yes") filtered
    else filtered in
  let filtered :=
    if pref_sustainable preferences
    then filter (fun p => String.eqb (sustainableSource p) "Yes") filtered
    else filtered in
  let filtered :=
    if pref_recyclable preferences
    then filter (fun p => String.eqb (recyclable p) "Yes") filtered
    else filtered in
  filtered.

(** ** Timeline *)

Definition msPerDay : Z := 1000 * 60 * 60 * 24.

(** [d.setDate (d.getDate () + days)] on the time value. *)
Definition addDays (date days : Z) : Z := date + days * msPerDay.

Definition checkTimeline (product : Product) (requiredDate : Z)
  (projectState : string) (orderDate : Z) : Timeline :=
  let shippingDays :=
    calculateShippingDays (warehouseLocation product) projectState in
  let totalDays := leadTimeDays product + shippingDays in
  let deliveryDate := addDays orderDate totalDays in
  let meets := deliveryDate <=? requiredDate in
  let margin := (requiredDate - deliveryDate) / msPerDay in
  {| tl_estimatedShippingDays := shippingDays;
     tl_totalLeadTime := totalDays;
     tl_estimatedDelivery := deliveryDate;
     tl_meetsTimeline := meets;
     tl_daysMargin := margin |}.

(** ** Scorer *)

(** The three locals [score], [matchReasons] and [warnings] of
    [calculateMatchScore], threaded through its blocks. *)
Record Scoring := {
  score : Z;
  reasons : list Reason;
  warns : list Warning
}.

Definition addScore (n : Z) (st : Scoring) : Scoring :=
  {| score := score st + n; reasons := reasons st; warns := warns st |}.

Definition pushReason (r : Reason) (st : Scoring) : Scoring :=
  {| score := score st; reasons := reasons st ++ [ r ]; warns := warns st |}.

Definition pushWarning (w : Warning) (st : Scoring) : Scoring :=
  {| score := score st; reasons := reasons st; warns := warns st ++ [ w ] |}.

Definition scoreBase (st : Scoring) : Scoring :=
  pushReason AvailableInLocation (addScore 60 st).

(** [product.applicableProjectTypes] is the raw string here, so [includes]
    is the substring test. *)
Definition scoreProjectType (p : Product) (spec : ProjectSpecification)
  (st : Scoring) : Scoring :=
  if Js.str_includes (applicableProjectTypes p) (projectType spec)
  then pushReason (SuitableFor (projectType spec)) (addScore 10 st)
  else st.

Definition scoreCertifications (p : Product) (spec : ProjectSpecification)
  (st : Scoring) : Scoring :=
  match requiredCertifications spec with
  | None => st
  | Some certs =>
      if nonEmpty certs then
        let productCerts := Js.semicolon_list (certifications p) in
        let matchedCerts :=
          filter (fun reqCert => Js.includes productCerts reqCert) certs in
        if nonEmpty matchedCerts then
          pushReason (HasCertifications (List.length matchedCerts))
            (addScore (Z.min (Z.of_nat (List.length matchedCerts) * 5) 10) st)
        else st
      else st
  end.

Definition scoreEco (p : Product) (spec : ProjectSpecification)
  (st : Scoring) : Scoring :=
  let ecoScore := 0 in
  let '(ecoScore, st) :=
    if (ecoFriendlyPreference spec && String.eqb (ecoFriendly p) "Yes")%bool
    then (ecoScore + 5, pushReason EcoFriendlyProduct st)
    else (ecoScore, st) in
  let '(ecoScore, st) :=
    if (sustainablePreference spec && String.eqb (sustainableSource p) "Yes")%bool
    then (ecoScore + 5, pushReason SustainableSource st)
    else (ecoScore, st) in
  addScore (Z.min ecoScore 10) st.

Definition scoreStock (p : Product) (st : Scoring) : Scoring :=
  if 0 <? stockQty p then pushReason InStock (addScore 5 st)
  else pushWarning OutOfStock st.

Definition scoreInstallation (p : Product) (spec : ProjectSpecification)
  (st : Scoring) : Scoring :=
  if (String.eqb (installationCapability spec) "DIY"
      && Js.includes [ "Easy"; "Moderate" ] (installationDifficulty p))%bool
  then pushReason DIYFriendly (addScore 5 st)
  else if (String.eqb (installationCapability spec) "Professional"
           && String.eqb (installationDifficulty p) "Professional Required")%bool
  then pushReason ProfessionalInstallation (addScore 5 st)
  else st.

Definition scoreWarranty (p : Product) (st : Scoring) : Scoring :=
  if 10 <=? warrantyYears p
  then pushReason (Warranty (warrantyYears p)) (addScore 3 st)
  else if 5 <=? warrantyYears p
  then pushReason (Warranty (warrantyYears p)) (addScore 2 st)
  else st.

Definition scoreTimeline (timeline : Timeline) (st : Scoring) : Scoring :=
  if tl_meetsTimeline timeline
  then pushReason (CanDeliverBefore (tl_daysMargin timeline)) (addScore 5 st)
  else pushWarning (WillBeLate (Z.abs (tl_daysMargin timeline)))
         (addScore (-10) st).

(** The value of the local [score] just before the final clamp. *)
Definition scoreBlocks (p : Product) (spec : ProjectSpecification)
  (timeline : Timeline) : Scoring :=
  let st := {| score := 0; reasons := []; warns := [] |} in
  let st := scoreBase st in
  let st := scoreProjectType p spec st in
  let st := scoreCertifications p spec st in
  let st := scoreEco p spec st in
  let st := scoreStock p st in
  let st := scoreInstallation p spec st in
  let st := scoreWarranty p st in
  scoreTimeline timeline st.

Definition calculateMatchScore (p : Product) (spec : ProjectSpecification)
  : ProductMatch :=
  let timeline :=
    checkTimeline p (projectEndDate spec) (location spec)
      (projectStartDate spec) in
  let st := scoreBlocks p spec timeline in
  {| product := p;
     matchScore := Z.min (Z.max (score st) 0) 100;
     matchReasons := reasons st;
     warnings := warns st;
     estimatedShippingDays := tl_estimatedShippingDays timeline;
     totalLeadTime := tl_totalLeadTime timeline;
     estimatedDelivery := tl_estimatedDelivery timeline;
     meetsTimeline := tl_meetsTimeline timeline;
     daysMargin := tl_daysMargin timeline |}.

(** ** Matcher *)

(** [Array.prototype.sort] with a comparator: the sort is stable, so for a
    consistent comparator the result is the one permutation that is ordered
    and keeps equal elements in their input order.  Insertion from the
    right computes it: an element goes in front of the first element it does
    not have to follow. *)
Fixpoint insertBy {A} (cmp : A -> A -> Z) (x : A) (l : list A) : list A :=
  match l with
  | [] => [ x ]
  | y :: rest => if cmp x y <=? 0 then x :: l else y :: insertBy cmp x rest
  end.

Definition sortBy {A} (cmp : A -> A -> Z) (l : list A) : list A :=
  fold_right (insertBy cmp) [] l.

(** The comparator [(a, b) => b.matchScore - a.matchScore]. *)
Definition byScoreDesc (a b : ProductMatch) : Z := matchScore b - matchScore a.

(** Filters 1 to 4 of [findMatchingProducts]. *)
Definition legalCandidates (allProducts : list Product)
  (spec : ProjectSpecification) : list Product :=
  let filtered := allProducts in
  let filtered := filterByLocation filtered (location spec) in
  let filtered := filterByProjectType filtered (projectType spec) in
  let filtered :=
    match requiredCategories spec with
    | Some cats =>
        if nonEmpty cats then filterByCategories filtered (requiredCategories spec)
        else filtered
    | None => filtered
    end in
  let filtered :=
    match requiredCertifications spec with
    | Some _ =>
        if requireCertifications spec
        then filterByCertifications filtered (requiredCertifications spec)
        else filtered
    | None => filtered
    end in
  filtered.

Definition specEcoPreferences (spec : ProjectSpecification) : EcoPreferences :=
  {| pref_ecoFriendly := ecoFriendlyPreference spec;
     pref_sustainable := sustainablePreference spec;
     pref_recyclable := false |}.

(** The whole filter chain: the value of [filtered] when scoring starts. *)
Definition candidates (allProducts : list Product)
  (spec : ProjectSpecification) : list Product :=
  let filtered := legalCandidates allProducts spec in
  if (ecoFriendlyPreference spec || sustainablePreference spec)%bool then
    let ecoFiltered := filterByEcoPreferences filtered (specEcoPreferences spec) in
    if nonEmpty ecoFiltered then ecoFiltered else filtered
  else filtered.

Definition findMatchingProducts (allProducts : list Product)
  (spec : ProjectSpecification) : list ProductMatch :=
  let filtered := candidates allProducts spec in
  let scored := map (fun p => calculateMatchScore p spec) filtered in
  sortBy byScoreDesc scored.

(** ** Plain objects used as dictionaries *)

(** A call either returns or throws a [TypeError]. *)
Inductive JsResult (A : Type) : Type :=
| Returned (a : A)
| TypeError.
Arguments Returned {A} a.
Arguments TypeError {A}.

Definition bind {A B} (r : JsResult A) (k : A -> JsResult B) : JsResult B :=
  match r with
  | Returned a => k a
  | TypeError => TypeError
  end.

(** [l.forEach (x => ...)] whose body updates a state and may throw. *)
Fixpoint forEachM {A S} (body : S -> A -> JsResult S) (l : list A) (s : S)
  : JsResult S :=
  match l with
  | [] => Returned s
  | x :: rest => bind (body s x) (forEachM body rest)
  end.

Module Dict.

(** The own properties of an object created by [{}], oldest first.
    [Object.keys] lists integer-like names before the others; nothing in
    the analyzer depends on the order of enumeration beyond each key being
    visited once, so the insertion order stands for it. *)
Definition t (V : Type) : Type := list (string * V).

(** The names every [{}] inherits from [Object.prototype]; reading one of
    them on an object that has no own property of that name yields a
    function (or, for [__proto__], the prototype object): a truthy value
    without a [push] method. *)
Definition prototypeNames : list string :=
  [ "constructor"; "__defineGetter__"; "__defineSetter__"; "hasOwnProperty";
    "__lookupGetter__"; "__lookupSetter__"; "isPrototypeOf";
    "propertyIsEnumerable"; "toString"; "valueOf"; "__proto__";
    "toLocaleString" ].

Definition inherited (key : string) : bool := Js.includes prototypeNames key.

Fixpoint getOwn {V} (key : string) (d : t V) : option V :=
  match d with
  | [] => None
  | (k, v) :: rest => if String.eqb key k then Some v else getOwn key rest
  end.

(** [d[key] = v]: replaces the value of an own property in place, or
    adds the property at the end. *)
Fixpoint set {V} (key : string) (v : V) (d : t V) : t V :=
  match d with
  | [] => [ (key, v) ]
  | (k, w) :: rest =>
      if String.eqb key k then (k, v) :: rest else (k, w) :: set key v rest
  end.

Definition keys {V} (d : t V) : list string := map fst d.

End Dict.

(** ** Project analyzer *)

Record BreakdownEntry := {
  bd_product : string;
  bd_cost : Z;
  bd_deliveryDate : Z
}.

Inductive Risk :=
| CostExceedsBudget (cost budget : Z)
| CannotMeetTimeline (lateCount : nat)
| NoProductsForCategories (missing : list string).

Inductive Recommendation :=
| AdjustSelectionsOrBudget
| AdjustTimelineOrShipping
| ExpandSearchCriteria.

Record TimelineAnalysis := {
  feasible : bool;
  criticalPath : list string;
  concerns : list string
}.

Record ProjectAnalysis := {
  specification : ProjectSpecification;
  recommendedProducts : list ProductMatch;
  estimatedTotalCost : Z;
  categoryBreakdown : Dict.t BreakdownEntry;
  timelineAnalysis : TimelineAnalysis;
  risks : list Risk;
  recommendations : list Recommendation
}.

(** The body of [matchedProducts.forEach (match => ...)].  When
    [byCategory[category]] is an own property it is an array and the match
    is pushed on it; when the name is inherited the value read is truthy, no
    array is created, and the call of its missing [push] throws. *)
Definition groupStep (byCategory : Dict.t (list ProductMatch))
  (m : ProductMatch) : JsResult (Dict.t (list ProductMatch)) :=
  let category := category (product m) in
  match Dict.getOwn category byCategory with
  | Some arr => Returned (Dict.set category (arr ++ [ m ]) byCategory)
  | None =>
      if Dict.inherited category then TypeError
      else Returned (Dict.set category [ m ] byCategory)
  end.

Definition groupByCategory (matchedProducts : list ProductMatch)
  : JsResult (Dict.t (list ProductMatch)) :=
  forEachM groupStep matchedProducts [].

(** The body of [Object.keys (byCategory).forEach (category => ...)], on
    the pair [(analysis.categoryBreakdown, analysis.estimatedTotalCost)];
    [arr] is [byCategory[category]]. *)
Definition breakdownStep (acc : Dict.t BreakdownEntry * Z)
  (entry : string * list ProductMatch) : Dict.t BreakdownEntry * Z :=
  let '(category, arr) := entry in
  match arr with
  | best :: _ =>
      (Dict.set category
         {| bd_product := productName (product best);
            bd_cost := price (product best);
            bd_deliveryDate := estimatedDelivery best |} (fst acc),
       snd acc + price (product best))
  | [] => acc
  end.

Definition budgetTruthy (b : option Z) : bool :=
  match b with
  | Some v => negb (v =? 0)
  | None => false
  end.

Definition checkBudget (spec : ProjectSpecification) (a : ProjectAnalysis)
  : ProjectAnalysis :=
  match maxBudget spec with
  | Some budget =>
      if (budgetTruthy (maxBudget spec) && (budget <? estimatedTotalCost a))%bool
      then
        {| specification := specification a;
           recommendedProducts := recommendedProducts a;
           estimatedTotalCost := estimatedTotalCost a;
           categoryBreakdown := categoryBreakdown a;
           timelineAnalysis := timelineAnalysis a;
           risks := risks a ++ [ CostExceedsBudget (estimatedTotalCost a) budget ];
           recommendations := recommendations a ++ [ AdjustSelectionsOrBudget ] |}
      else a
  | None => a
  end.

Definition checkLate (matchedProducts : list ProductMatch)
  (a : ProjectAnalysis) : ProjectAnalysis :=
  let lateProducts := filter (fun m => negb (meetsTimeline m)) matchedProducts in
  if nonEmpty lateProducts then
    {| specification := specification a;
       recommendedProducts := recommendedProducts a;
       estimatedTotalCost := estimatedTotalCost a;
       categoryBreakdown := categoryBreakdown a;
       timelineAnalysis :=
         {| feasible := false;
            criticalPath := criticalPath (timelineAnalysis a);
            concerns := concerns (timelineAnalysis a) |};
       risks := risks a ++ [ CannotMeetTimeline (List.length lateProducts) ];
       recommendations := recommendations a ++ [ AdjustTimelineOrShipping ] |}
  else a.

Definition checkMissing (spec : ProjectSpecification) (a : ProjectAnalysis)
  : ProjectAnalysis :=
  match requiredCategories spec with
  | Some cats =>
      let foundCategories := Dict.keys (categoryBreakdown a) in
      let missing :=
        filter (fun cat => negb (Js.includes foundCategories cat)) cats in
      if nonEmpty missing then
        {| specification := specification a;
           recommendedProducts := recommendedProducts a;
           estimatedTotalCost := estimatedTotalCost a;
           categoryBreakdown := categoryBreakdown a;
           timelineAnalysis := timelineAnalysis a;
           risks := risks a ++ [ NoProductsForCategories missing ];
           recommendations := recommendations a ++ [ ExpandSearchCriteria ] |}
      else a
  | None => a
  end.

(** What [analyzeProject] does once the grouping is done. *)
Definition buildAnalysis (matchedProducts : list ProductMatch)
  (spec : ProjectSpecification) (byCategory : Dict.t (list ProductMatch))
  : ProjectAnalysis :=
  let '(breakdown, total) := fold_left breakdownStep byCategory ([], 0) in
  let analysis :=
    {| specification := spec;
       recommendedProducts := matchedProducts;
       estimatedTotalCost := total;
       categoryBreakdown := breakdown;
       timelineAnalysis :=
         {| feasible := true; criticalPath := []; concerns := [] |};
       risks := [];
       recommendations := [] |} in
  let analysis := checkBudget spec analysis in
  let analysis := checkLate matchedProducts analysis in
  let analysis := checkMissing spec analysis in
  analysis.

Definition analyzeProject (matchedProducts : list ProductMatch)
  (spec : ProjectSpecification) : JsResult ProjectAnalysis :=
  bind (groupByCategory matchedProducts) (fun byCategory =>
    Returned (buildAnalysis matchedProducts spec byCategory)).

(** ** Further filters and views *)

(** [filterByStock] of [src/services/productMatcher.js]. *)
Definition filterByStock (products : list Product) (inStockOnly : bool)
  : list Product :=
  if negb inStockOnly then products
  else filter (fun product => 0 <? stockQty product) products.

(** The category filter of [ResultsDisplay]: the selection ["all"] shows
    every recommended product. *)
Definition displayProducts (recommended : list ProductMatch)
  (selectedCategory : string) : list ProductMatch :=
  if negb (String.eqb selectedCategory "all")
  then filter (fun m => String.eqb (category (product m)) selectedCategory)
         recommended
  else recommended.

(** [sortProducts] of [ResultsDisplay]: each known key sorts a copy of the
    list, any other key returns the list as it is. *)
Definition sortProducts (sortKey : string) (products : list ProductMatch)
  : list ProductMatch :=
  if String.eqb sortKey "score"
  then sortBy (fun a b => matchScore b - matchScore a) products
  else if String.eqb sortKey "price-low"
  then sortBy (fun a b => price (product a) - price (product b)) products
  else if String.eqb sortKey "price-high"
  then sortBy (fun a b => price (product b) - price (product a)) products
  else if String.eqb sortKey "delivery"
  then sortBy (fun a b => estimatedDelivery a - estimatedDelivery b) products
  else products.

(** [getProductsForCategory] of [ProjectDashboard]; the selected category
    is [null] ([None]) until a chart is clicked. *)
Definition getProductsForCategory (recommended : list ProductMatch)
  (selected : option string) : list ProductMatch :=
  match selected with
  | None => []
  | Some c =>
      if negb (Js.truthy c) then []
      else filter (fun m => String.eqb (category (product m)) c) recommended
  end.

(** ** CSV ingestion ([src/utils/csvParser.js]) *)

Definition dquote : ascii := ascii_of_nat 34.
Definition comma : ascii := ascii_of_nat 44.
Definition newline : ascii := ascii_of_nat 10.

(** [current += char]. *)
Definition appendChar (s : string) (c : ascii) : string :=
  String.append s (String c EmptyString).

(** The loop of [parseCSVLine] over the characters that are left, with its
    locals [values], [current] and [inQuotes].  A quote inside quotes that is
    followed by a quote is an escaped quote: both characters are consumed. *)
Fixpoint parseCSVLoop (line : string) (values : list string) (current : string)
  (inQuotes : bool) : list string :=
  match line with
  | EmptyString => values ++ [ current ]
  | String char rest =>
      if Ascii.eqb char dquote then
        match rest with
        | String nextChar rest' =>
            if (inQuotes && Ascii.eqb nextChar dquote)%bool
            then parseCSVLoop rest' values (appendChar current dquote) inQuotes
            else parseCSVLoop rest values current (negb inQuotes)
        | EmptyString => parseCSVLoop rest values current (negb inQuotes)
        end
      else if (Ascii.eqb char comma && negb inQuotes)%bool
      then parseCSVLoop rest (values ++ [ current ]) EmptyString inQuotes
      else parseCSVLoop rest values (appendChar current char) inQuotes
  end.

Definition parseCSVLine (line : string) : list string :=
  parseCSVLoop line [] EmptyString false.

(** [obj[key] = v] on a plain object for a primitive [v]: the inherited
    setter of [__proto__] ignores primitives, every other name becomes or
    stays an own property. *)
Definition assign {V} (key : string) (v : V) (obj : Dict.t V) : Dict.t V :=
  if String.eqb key "__proto__" then obj else Dict.set key v obj.

Section CsvCells.

(** The numbers of the parsed cells: [parseFloat] is the built-in, [None]
    standing for [NaN]. *)
Variable Num : Type.
Variable zero : Num.
Variable parseFloat : string -> option Num.

Inductive Cell : Type :=
| CellNumber (n : Num)
| CellString (s : string).

Definition parseValue (header value : string) : Cell :=
  let value := Js.trim value in
  if String.eqb value "" then
    if (Js.str_includes header "price" || Js.str_includes header "Qty"
        || Js.str_includes header "Days" || Js.str_includes header "weight"
        || Js.str_includes header "Years")%bool
    then CellNumber zero
    else CellString ""
  else if (String.eqb header "price" || String.eqb header "minOrderQty"
           || String.eqb header "stockQty" || String.eqb header "leadTimeDays"
           || String.eqb header "weight" || String.eqb header "warrantyYears")%bool
  then match parseFloat value with
       | Some num => CellNumber num
       | None => CellNumber zero
       end
  else CellString value.

(** The object built for one data line: [headers.forEach ((header, index) =>
    obj[header] = parseValue (header, values[index]))]. *)
Definition parseRow (headers values : list string) : Dict.t Cell :=
  fold_left (fun obj (hv : string * string) =>
               assign (fst hv) (parseValue (fst hv) (snd hv)) obj)
    (combine headers values) [].

Definition parseCSV (csvText : string) : list (Dict.t Cell) :=
  let lines :=
    filter (fun line => Js.truthy (Js.trim line)) (Js.split newline csvText) in
  match lines with
  | [] => []
  | first :: rest =>
      let headers := parseCSVLine first in
      flat_map (fun line =>
                  let values := parseCSVLine line in
                  if negb (Nat.eqb (List.length values) (List.length headers))
                  then []
                  else [ parseRow headers values ])
        rest
  end.

End CsvCells.

Arguments CellNumber {Num} n.
Arguments CellString {Num} s.

(** ** CSV generation ([src/utils/generateProductData.cjs]) *)

(** The [replace] of [generateCSV]: every quote character becomes two. *)
Fixpoint doubleQuotes (s : string) : string :=
  match s with
  | EmptyString => EmptyString
  | String c rest =>
      if Ascii.eqb c dquote
      then String dquote (String dquote (doubleQuotes rest))
      else String c (doubleQuotes rest)
  end.

(** The escaping of one string cell in [generateCSV]. *)
Definition escapeValue (value : string) : string :=
  if (Js.str_includes value (String comma EmptyString)
      || Js.str_includes value (String dquote EmptyString)
      || Js.str_includes value (String newline EmptyString))%bool
  then String dquote (appendChar (doubleQuotes value) dquote)
  else value.

(** [row.join (',')] of the escaped cells. *)
Definition csvRow (cells : list string) : string :=
  String.concat (String comma EmptyString) (map escapeValue cells).

(** The column names of [generateCSV]. *)
Definition csvHeaders : list string :=
  [ "productId"; "productName"; "category"; "manufacturer"; "price"; "unit";
    "minOrderQty"; "stockQty"; "leadTimeDays"; "warehouseLocation"; "weight";
    "dimensions"; "restrictedStates"; "applicableProjectTypes";
    "certifications"; "ecoFriendly"; "recyclable"; "sustainableSource";
    "warrantyYears"; "fireRating"; "installationDifficulty"; "description" ].

(** [generateCSV]: the header line, then one line per product; [rows] holds,
    for each product, the cells [product[header]] as [join] prints them. *)
Definition generateCSV (rows : list (list string)) : string :=
  fold_left (fun csv row =>
               String.append csv (appendChar (csvRow row) newline))
    rows
    (appendChar (String.concat (String comma EmptyString) csvHeaders) newline).

(** ** Definitions used to state the properties *)

(** A scoring block [f] moves the score by an amount between [lo] and [hi]. *)
Definition moves (f : Scoring -> Scoring) (lo hi : Z) : Prop :=
  forall st, score st + lo <= score (f st) <= score st + hi.

Definition scoreDesc (a b : ProductMatch) : Prop := matchScore b <= matchScore a.

(** The matches of a given score. *)
Definition withScore (v : Z) (l : list ProductMatch) : list ProductMatch :=
  filter (fun m => matchScore m =? v) l.

(** The grouping the loop leaves for one state code: the last entry of
    [regions] that lists it, [None] when no entry does. *)
Definition regionPick (state : string) (acc : option string)
  (entry : string * list string) : option string :=
  if Js.includes (snd entry) state then Some (fst entry) else acc.

Definition regionOf (state : string) : option string :=
  fold_left (regionPick state) regions None.

Definition inAnyGrouping (state : string) : bool :=
  existsb (fun entry : string * list string => Js.includes (snd entry) state)
    regions.

(** Some grouping other than ["other"] lists both codes. *)
Definition shareProperGrouping (a b : string) : bool :=
  existsb (fun entry : string * list string =>
             negb (String.eqb (fst entry) "other")
             && Js.includes (snd entry) a && Js.includes (snd entry) b)%bool
    regions.

(** Some grouping lists both codes. *)
Definition shareGrouping (a b : string) : bool :=
  existsb (fun entry : string * list string =>
             Js.includes (snd entry) a && Js.includes (snd entry) b)%bool
    regions.

(** The shipping days as the specification words them: the same-grouping
    reduction is withheld from every code of the remote set. *)
Definition specifiedShippingDays (origin destination : string) : Z :=
  if String.eqb origin destination then 2
  else
    let days := 5 in
    let days := if Js.includes remoteStates origin then days + 3 else days in
    let days := if Js.includes remoteStates destination then days + 3 else days in
    let days :=
      if (shareGrouping origin destination
          && negb (Js.includes remoteStates origin)
          && negb (Js.includes remoteStates destination))%bool
      then days - 2 else days in
    Z.max days 2.

Definition inCategory (c : string) (m : ProductMatch) : bool :=
  String.eqb (category (product m)) c.

(** The first match of a category in a match list. *)
Definition firstOfCategory (c : string) (ms : list ProductMatch)
  : option ProductMatch :=
  find (inCategory c) ms.

(** The breakdown entry written for the representative of a category. *)
Definition entryOf (best : ProductMatch) : BreakdownEntry :=
  {| bd_product := productName (product best);
     bd_cost := price (product best);
     bd_deliveryDate := estimatedDelivery best |}.

(** The sum of the costs of the entries of a breakdown. *)
Definition sumOfCosts (breakdown : Dict.t BreakdownEntry) : Z :=
  fold_right (fun e acc => bd_cost (snd e) + acc) 0 breakdown.

(** The entries the second loop writes for a grouping. *)
Definition entriesOf (byCategory : Dict.t (list ProductMatch))
  : Dict.t BreakdownEntry :=
  flat_map (fun entry : string * list ProductMatch =>
              match snd entry with
              | best :: _ => [ (fst entry, entryOf best) ]
              | [] => []
              end) byCategory.

(** [d] is the grouping of the matches [ms]: one key per category that
    occurs, holding the matches of the category in their order. *)
Definition Grouped (d : Dict.t (list ProductMatch)) (ms : list ProductMatch)
  : Prop :=
  NoDup (Dict.keys d)
  /\ forall c,
      Dict.getOwn c d
      = (let b := filter (inCategory c) ms in
         if nonEmpty b then Some b else None).

Definition isBudgetRisk (r : Risk) : bool :=
  match r with CostExceedsBudget _ _ => true | _ => false end.

Definition isTimelineRisk (r : Risk) : bool :=
  match r with CannotMeetTimeline _ => true | _ => false end.

Definition isMissingCategoryRisk (r : Risk) : bool :=
  match r with NoProductsForCategories _ => true | _ => false end.

(** A catalog row whose category text is the name of a property every
    object inherits. *)
Definition inheritedCategoryProduct : Product :=
  {| productId := "P-900";
     productName := "Site office kit";
     category := "constructor";
     price := 100;
     stockQty := 4;
     leadTimeDays := 5;
     warehouseLocation := "CA";
     restrictedStates := "";
     applicableProjectTypes := "Residential";
     certifications := "";
     ecoFriendly := "No";
     recyclable := "No";
     sustainableSource := "No";
     warrantyYears := 0;
     installationDifficulty := "Easy" |}.

Definition residentialSpec : ProjectSpecification :=
  {| projectType := "Residential";
     location := "CA";
     maxBudget := Some 200;
     projectStartDate := 0;
     projectEndDate := 20 * msPerDay;
     requiredCategories := Some [];
     requireCertifications := false;
     requiredCertifications := Some [];
     ecoFriendlyPreference := false;
     sustainablePreference := false;
     installationCapability := "Professional" |}.

(** Scenario A of the specification: the product and the project. *)
Definition ScenarioAProduct (p : Product) : Prop :=
  warehouseLocation p = "CA"
  /\ leadTimeDays p = 5
  /\ price p = 100
  /\ category p = "Lumber"
  /\ 0 < stockQty p
  /\ restrictedStates p = ""
  /\ applicableProjectTypes p = "Residential"
  /\ certifications p = ""
  /\ warrantyYears p = 0
  /\ installationDifficulty p = "Easy".

Definition ScenarioASpec (s : ProjectSpecification) : Prop :=
  projectType s = "Residential"
  /\ location s = "CA"
  /\ projectStartDate s = 0
  /\ projectEndDate s = 20 * msPerDay
  /\ maxBudget s = Some 200
  /\ (requiredCategories s = None \/ requiredCategories s = Some [])
  /\ (requiredCertifications s = None \/ requiredCertifications s = Some [])
  /\ ecoFriendlyPreference s = false
  /\ sustainablePreference s = false
  /\ installationCapability s = "Professional".

Definition lumberProduct : Product :=
  {| productId := "P-001";
     productName := "Framing stud";
     category := "Lumber";
     price := 100;
     stockQty := 40;
     leadTimeDays := 5;
     warehouseLocation := "CA";
     restrictedStates := "";
     applicableProjectTypes := "Residential";
     certifications := "";
     ecoFriendly := "No";
     recyclable := "Yes";
     sustainableSource := "No";
     warrantyYears := 0;
     installationDifficulty := "Easy" |}.

(** A product satisfies the environmental preferences of a project. *)
Definition meetsEcoPreferences (spec : ProjectSpecification) (p : Product)
  : bool :=
  (implb (ecoFriendlyPreference spec) (String.eqb (ecoFriendly p) "Yes")
   && implb (sustainablePreference spec)
        (String.eqb (sustainableSource p) "Yes"))%bool.

Definition premiumLumber : Product :=
  {| productId := "P-002";
     productName := "Treated beam";
     category := "Lumber";
     price := 180;
     stockQty := 12;
     leadTimeDays := 3;
     warehouseLocation := "OR";
     restrictedStates := "NY; HI";
     applicableProjectTypes := "Residential;Commercial";
     certifications := "FSC Certified";
     ecoFriendly := "Yes";
     recyclable := "Yes";
     sustainableSource := "Yes";
     warrantyYears := 10;
     installationDifficulty := "Moderate" |}.

Definition steelProduct : Product :=
  {| productId := "P-003";
     productName := "Steel joist";
     category := "Steel";
     price := 250;
     stockQty := 0;
     leadTimeDays := 30;
     warehouseLocation := "PA";
     restrictedStates := "";
     applicableProjectTypes := "Commercial;Residential";
     certifications := "ASTM Compliant";
     ecoFriendly := "No";
     recyclable := "Yes";
     sustainableSource := "No";
     warrantyYears := 5;
     installationDifficulty := "Professional Required" |}.

(** [residentialSpec] with the eco-friendly preference set. *)
Definition ecoSpec : ProjectSpecification :=
  {| projectType := "Residential";
     location := "CA";
     maxBudget := Some 200;
     projectStartDate := 0;
     projectEndDate := 20 * msPerDay;
     requiredCategories := Some [];
     requireCertifications := false;
     requiredCertifications := Some [];
     ecoFriendlyPreference := true;
     sustainablePreference := false;
     installationCapability := "Professional" |}.

(** The specification [spec] with another project end date. *)
Definition withEndDate (spec : ProjectSpecification) (endDate : Z)
  : ProjectSpecification :=
  {| projectType := projectType spec;
     location := location spec;
     maxBudget := maxBudget spec;
     projectStartDate := projectStartDate spec;
     projectEndDate := endDate;
     requiredCategories := requiredCategories spec;
     requireCertifications := requireCertifications spec;
     requiredCertifications := requiredCertifications spec;
     ecoFriendlyPreference := ecoFriendlyPreference spec;
     sustainablePreference := sustainablePreference spec;
     installationCapability := installationCapability spec |}.

(** The scoring state when the timeline block starts. *)
Definition scoreBeforeTimeline (p : Product) (spec : ProjectSpecification)
  : Scoring :=
  scoreWarranty p
    (scoreInstallation p spec
       (scoreStock p
          (scoreEco p spec
             (scoreCertifications p spec
                (scoreProjectType p spec
                   (scoreBase {| score := 0; reasons := []; warns := [] |})))))).

(** [w] occurs in [s]. *)
Definition Substring (w s : string) : Prop :=
  exists pre post, s = String.append pre (String.append w post).

(** A product may be offered to a project: it is not restricted in the
    destination, applies to the project type when one is given, belongs to a
    required category when some are required, and holds every required
    certification when certifications are required. *)
Definition eligible (spec : ProjectSpecification) (p : Product) : bool :=
  (negb (Js.includes (Js.semicolon_list (restrictedStates p)) (location spec))
   && (negb (Js.truthy (projectType spec))
       || Js.includes (Js.semicolon_list (applicableProjectTypes p))
            (projectType spec))
   && match requiredCategories spec with
      | Some (c :: cs) => Js.includes (c :: cs) (category p)
      | _ => true
      end
   && match requiredCertifications spec with
      | Some certs =>
          negb (requireCertifications spec)
          || forallb (Js.includes (Js.semicolon_list (certifications p))) certs
      | None => true
      end)%bool.

(** The recommendation pushed together with each kind of risk. *)
Definition recommendationFor (r : Risk) : Recommendation :=
  match r with
  | CostExceedsBudget _ _ => AdjustSelectionsOrBudget
  | CannotMeetTimeline _ => AdjustTimelineOrShipping
  | NoProductsForCategories _ => ExpandSearchCriteria
  end.

(** The matches that miss the timeline. *)
Definition lateMatches (ms : list ProductMatch) : list ProductMatch :=
  filter (fun m => negb (meetsTimeline m)) ms.

(** The required categories for which the match list has no product. *)
Definition uncoveredCategories (cats : list string) (ms : list ProductMatch)
  : list string :=
  filter (fun c => negb (existsb (inCategory c) ms)) cats.

(** A project that requires two categories. *)
Definition lumberSteelSpec : ProjectSpecification :=
  {| projectType := "Residential"; location := "CA"; maxBudget := None;
     projectStartDate := 0; projectEndDate := 30 * msPerDay;
     requiredCategories := Some [ "Lumber"; "Steel" ];
     requireCertifications := false; requiredCertifications := None;
     ecoFriendlyPreference := false; sustainablePreference := false;
     installationCapability := "DIY" |}.

(** The character [c] occurs in [s]. *)
Fixpoint hasChar (c : ascii) (s : string) : bool :=
  match s with
  | EmptyString => false
  | String x rest => (Ascii.eqb x c || hasChar c rest)%bool
  end.

(** [cur] put in front of the first string of a list. *)
Definition ontoHead (cur : string) (l : list string) : list string :=
  match l with
  | [] => [ cur ]
  | w :: ws => String.append cur w :: ws
  end.

(** The columns [parseValue] reads as numbers, and the other columns of
    the generated file. *)
Definition numericHeaders : list string :=
  [ "price"; "minOrderQty"; "stockQty"; "leadTimeDays"; "weight";
    "warrantyYears" ].

Definition textHeaders : list string :=
  [ "productId"; "productName"; "category"; "manufacturer"; "unit";
    "warehouseLocation"; "dimensions"; "restrictedStates";
    "applicableProjectTypes"; "certifications"; "ecoFriendly"; "recyclable";
    "sustainableSource"; "fireRating"; "installationDifficulty";
    "description" ].

(** The string starts with a quote character. *)
Definition startsWithQuote (s : string) : bool :=
  match s with
  | String c _ => Ascii.eqb c dquote
  | EmptyString => false
  end.

(** The text made of the given lines, each followed by a line feed. *)
Definition linesText (ls : list string) : string :=
  fold_right (fun l acc => String.append (appendChar l newline) acc)
    EmptyString ls.

(** A row of the generated file: one cell per column, none holding a
    line feed. *)
Definition wellFormedRow (row : list string) : Prop :=
  List.length row = List.length csvHeaders
  /\ Forall (fun cell => hasChar newline cell = false) row.

(** * Properties *)

(** ** Sanity checks *)

Example ship_CA_CA : calculateShippingDays "CA" "CA" = 2.
Proof. reflexivity. Qed.
Example ship_CA_NY : calculateShippingDays "CA" "NY" = 5.
Proof. reflexivity. Qed.
Example ship_CA_HI : calculateShippingDays "CA" "HI" = 8.
Proof. reflexivity. Qed.
Example ship_ME_NH : calculateShippingDays "ME" "NH" = 6.
Proof. reflexivity. Qed.
Example split_ex : Js.semicolon_list " CA; NY ;;TX " = [ "CA"; "NY"; "TX" ].
Proof. reflexivity. Qed.
Example includes_empty : Js.str_includes "" "" = true.
Proof. reflexivity. Qed.

(** ** Scorer: bounds on the score *)

Section ScoreBounds.

Variables (p : Product) (spec : ProjectSpecification).

Ltac block f :=
  intro st; unfold f, pushReason, pushWarning, addScore;
  repeat match goal with
    | |- context [if ?c then _ else _] => destruct c
    end; simpl; lia.

Lemma scoreBase_moves : moves scoreBase 60 60.
Proof. block scoreBase. Qed.

Lemma scoreProjectType_moves : moves (scoreProjectType p spec) 0 10.
Proof. block scoreProjectType. Qed.

Lemma scoreCertifications_moves : moves (scoreCertifications p spec) 0 10.
Proof.
  intro st. unfold scoreCertifications.
  destruct (requiredCertifications spec) as [certs|]; [|lia].
  destruct (nonEmpty certs); [|lia].
  destruct (nonEmpty _); simpl; lia.
Qed.

Lemma scoreEco_moves : moves (scoreEco p spec) 0 10.
Proof. block scoreEco. Qed.

Lemma scoreStock_moves : moves (scoreStock p) 0 5.
Proof. block scoreStock. Qed.

Lemma scoreInstallation_moves : moves (scoreInstallation p spec) 0 5.
Proof. block scoreInstallation. Qed.

Lemma scoreWarranty_moves : moves (scoreWarranty p) 0 3.
Proof. block scoreWarranty. Qed.

Lemma scoreTimeline_moves tl : moves (scoreTimeline tl) (-10) 5.
Proof. block scoreTimeline. Qed.

Lemma moves_compose f g lo1 hi1 lo2 hi2 :
  moves f lo1 hi1 -> moves g lo2 hi2 ->
  moves (fun st => g (f st)) (lo1 + lo2) (hi1 + hi2).
Proof.
  intros Hf Hg st. specialize (Hf st). specialize (Hg (f st)). lia.
Qed.

(** Before the clamp the score lies between 50 and 108. *)
Lemma scoreBlocks_range tl : 50 <= score (scoreBlocks p spec tl) <= 108.
Proof.
  unfold scoreBlocks; cbv zeta.
  pose proof (scoreBase_moves {| score := 0; reasons := []; warns := [] |}) as H0.
  set (s0 := scoreBase _) in *.
  pose proof (scoreProjectType_moves s0) as H1.
  set (s1 := scoreProjectType p spec s0) in *.
  pose proof (scoreCertifications_moves s1) as H2.
  set (s2 := scoreCertifications p spec s1) in *.
  pose proof (scoreEco_moves s2) as H3.
  set (s3 := scoreEco p spec s2) in *.
  pose proof (scoreStock_moves s3) as H4.
  set (s4 := scoreStock p s3) in *.
  pose proof (scoreInstallation_moves s4) as H5.
  set (s5 := scoreInstallation p spec s4) in *.
  pose proof (scoreWarranty_moves s5) as H6.
  set (s6 := scoreWarranty p s5) in *.
  pose proof (scoreTimeline_moves tl s6) as H7.
  cbn [score] in H0. lia.
Qed.

End ScoreBounds.

(** C1: for every product and specification the [matchScore] returned by
    [calculateMatchScore] lies in the interval from 0 to 100: the sum of the
    bonuses and of the timeline penalty is clamped before the result is
    built. *)
Theorem matchScore_clamped (p : Product) (spec : ProjectSpecification) :
  0 <= matchScore (calculateMatchScore p spec) <= 100
  /\ matchScore (calculateMatchScore p spec)
     = Z.min (Z.max (score (scoreBlocks p spec
                              (checkTimeline p (projectEndDate spec)
                                 (location spec) (projectStartDate spec))))
                0) 100.
Proof.
  split; [|reflexivity].
  unfold calculateMatchScore; simpl. lia.
Qed.

(** C9: the [matchScore] is at least 50.  The base of 60 is always awarded
    and the timeline penalty of 10 is the only deduction, so the sum before
    the clamp is at least 50 and the lower bound 0 of the clamp never
    applies. *)
Theorem matchScore_at_least_50 (p : Product) (spec : ProjectSpecification) :
  let raw := score (scoreBlocks p spec
                      (checkTimeline p (projectEndDate spec) (location spec)
                         (projectStartDate spec))) in
  50 <= raw
  /\ Z.max raw 0 = raw
  /\ 50 <= matchScore (calculateMatchScore p spec).
Proof.
  intro raw.
  pose proof (scoreBlocks_range p spec
                (checkTimeline p (projectEndDate spec) (location spec)
                   (projectStartDate spec))) as H.
  fold raw in H.
  unfold calculateMatchScore; simpl. fold raw. lia.
Qed.

(** ** Timeline: sign of the margin *)

Lemma msPerDay_pos : 0 < msPerDay.
Proof. reflexivity. Qed.

Lemma floor_days_nonneg (ms : Z) : 0 <= ms / msPerDay <-> 0 <= ms.
Proof.
  pose proof msPerDay_pos as Hd. split; intro H.
  - destruct (Z_lt_le_dec ms 0) as [Hneg|]; [|assumption].
    assert (ms / msPerDay < 0) by (apply Z.div_lt_upper_bound; lia). lia.
  - apply Z.div_pos; lia.
Qed.

(** The sign of the margin only depends on how the delivery date compares
    with the required date, whatever calendar arithmetic produced it. *)
Lemma margin_sign (delivery required : Z) :
  let meets := delivery <=? required in
  let margin := (required - delivery) / msPerDay in
  (0 < margin -> meets = true)
  /\ (margin < 0 <-> meets = false)
  /\ (margin = 0 -> meets = true)
  /\ (meets = true <-> 0 <= margin)
  /\ (delivery = required -> margin = 0 /\ meets = true).
Proof.
  cbv zeta.
  pose proof (floor_days_nonneg (required - delivery)) as Hfloor.
  destruct (Z.leb_spec delivery required) as [Hle|Hgt].
  - assert (0 <= (required - delivery) / msPerDay) by (apply Hfloor; lia).
    repeat split; intros; try reflexivity; try lia; try discriminate.
    replace (required - delivery) with 0 by lia. reflexivity.
  - assert (~ 0 <= (required - delivery) / msPerDay)
      by (rewrite Hfloor; lia).
    repeat split; intros; try reflexivity; try lia; try discriminate.
Qed.

(** C6: the timeline fields follow the sign convention.  A positive margin
    means the timeline is met, a negative margin is the same as the timeline
    being missed, and a margin of 0 counts as met: in particular a delivery
    estimated exactly on the required date has margin 0 and meets the
    timeline.  So the timeline is met exactly when the margin is not
    negative. *)
Theorem checkTimeline_sign_convention (p : Product) (requiredDate : Z)
  (projectState : string) (orderDate : Z) :
  let t := checkTimeline p requiredDate projectState orderDate in
  (0 < tl_daysMargin t -> tl_meetsTimeline t = true)
  /\ (tl_daysMargin t < 0 <-> tl_meetsTimeline t = false)
  /\ (tl_daysMargin t = 0 -> tl_meetsTimeline t = true)
  /\ (tl_meetsTimeline t = true <-> 0 <= tl_daysMargin t)
  /\ (tl_estimatedDelivery t = requiredDate ->
      tl_daysMargin t = 0 /\ tl_meetsTimeline t = true).
Proof.
  unfold checkTimeline; cbn [tl_daysMargin tl_meetsTimeline tl_estimatedDelivery].
  apply margin_sign.
Qed.

(** ** The stable sort *)

Section StableSort.

Lemma insertBy_perm (x : ProductMatch) l :
  Permutation (insertBy byScoreDesc x l) (x :: l).
Proof.
  induction l as [|y l IH]; simpl; [reflexivity|].
  destruct (byScoreDesc x y <=? 0); [reflexivity|].
  rewrite IH. apply perm_swap.
Qed.

Lemma sortBy_perm l : Permutation (sortBy byScoreDesc l) l.
Proof.
  induction l as [|x l IH]; simpl; [reflexivity|].
  rewrite insertBy_perm. now constructor.
Qed.

Lemma insertBy_sorted x l :
  StronglySorted scoreDesc l -> StronglySorted scoreDesc (insertBy byScoreDesc x l).
Proof.
  induction 1 as [|y l Hs IH Hall]; simpl.
  - repeat constructor.
  - unfold byScoreDesc at 1.
    destruct (Z.leb_spec (matchScore y - matchScore x) 0) as [Hle|Hgt].
    + constructor; [now constructor|].
      constructor; [unfold scoreDesc; lia|].
      eapply Forall_impl; [|exact Hall].
      unfold scoreDesc; intros; lia.
    + constructor; [assumption|].
      eapply Permutation_Forall; [symmetry; apply insertBy_perm|].
      constructor; [unfold scoreDesc; lia|assumption].
Qed.

Lemma sortBy_sorted l : StronglySorted scoreDesc (sortBy byScoreDesc l).
Proof.
  induction l as [|x l IH]; simpl; [constructor|].
  now apply insertBy_sorted.
Qed.

Lemma insertBy_withScore v x l :
  withScore v (insertBy byScoreDesc x l) = withScore v (x :: l).
Proof.
  induction l as [|y l IH]; [reflexivity|].
  unfold withScore in *. simpl insertBy. unfold byScoreDesc at 1.
  destruct (Z.leb_spec (matchScore y - matchScore x) 0) as [Hle|Hgt];
    [reflexivity|].
  simpl in *. rewrite IH.
  destruct (Z.eqb_spec (matchScore x) v), (Z.eqb_spec (matchScore y) v);
    try reflexivity; lia.
Qed.

Lemma sortBy_withScore v l :
  withScore v (sortBy byScoreDesc l) = withScore v l.
Proof.
  induction l as [|x l IH]; [reflexivity|].
  simpl sortBy. rewrite insertBy_withScore.
  unfold withScore in *. simpl. now rewrite IH.
Qed.

End StableSort.

Lemma nonEmpty_false {A} (l : list A) : nonEmpty l = false <-> l = [].
Proof. destruct l; simpl; split; congruence. Qed.

Lemma nonEmpty_true {A} (l : list A) : nonEmpty l = true <-> l <> [].
Proof. destruct l; simpl; split; congruence. Qed.

Lemma sortBy_nil_iff l : sortBy byScoreDesc l = [] <-> l = [].
Proof.
  split; intro H; [|now subst].
  pose proof (sortBy_perm l) as P. rewrite H in P.
  now apply Permutation_nil.
Qed.

Lemma filter_filter {A} (f g : A -> bool) l :
  filter g (filter f l) = filter (fun x => (f x && g x)%bool) l.
Proof.
  induction l as [|x l IH]; simpl; [reflexivity|].
  destruct (f x); simpl; [destruct (g x)|]; now rewrite IH.
Qed.

Lemma filter_all {A} (l : list A) : filter (fun _ => true) l = l.
Proof. induction l as [|x l IH]; simpl; [|rewrite IH]; reflexivity. Qed.

(** The environmental narrowing keeps the products that satisfy every
    preference that is set. *)
Lemma filterByEcoPreferences_filter products spec :
  filterByEcoPreferences products (specEcoPreferences spec)
  = filter (meetsEcoPreferences spec) products.
Proof.
  unfold filterByEcoPreferences, specEcoPreferences, meetsEcoPreferences.
  cbn [pref_ecoFriendly pref_sustainable pref_recyclable].
  destruct (ecoFriendlyPreference spec), (sustainablePreference spec);
    cbn [implb andb].
  - apply filter_filter.
  - apply filter_ext. intro p. now rewrite andb_true_r.
  - reflexivity.
  - now rewrite filter_all.
Qed.

(** C3: with an eco-friendly or sustainable preference set, when the
    environmental narrowing of the candidates left by filters 1 to 4 is
    empty, [findMatchingProducts] scores exactly those candidates (the
    narrowing is discarded), and otherwise it scores exactly the narrowed
    list; so a non-empty candidate list never becomes empty because of the
    preference. *)
Theorem eco_preference_degrades_gracefully (allProducts : list Product)
  (spec : ProjectSpecification) :
  (ecoFriendlyPreference spec || sustainablePreference spec)%bool = true ->
  let pre := legalCandidates allProducts spec in
  let narrowed := filterByEcoPreferences pre (specEcoPreferences spec) in
  let scoreAll := map (fun p => calculateMatchScore p spec) in
  narrowed = filter (meetsEcoPreferences spec) pre
  /\ (narrowed = [] ->
   candidates allProducts spec = pre
   /\ findMatchingProducts allProducts spec = sortBy byScoreDesc (scoreAll pre))
  /\ (narrowed <> [] ->
      candidates allProducts spec = narrowed
      /\ findMatchingProducts allProducts spec
         = sortBy byScoreDesc (scoreAll narrowed))
  /\ (pre <> [] ->
      candidates allProducts spec <> []
      /\ findMatchingProducts allProducts spec <> []).
Proof.
  intros Hpref pre narrowed scoreAll.
  assert (Hne : narrowed = [] -> candidates allProducts spec = pre).
  { intro Hn. unfold candidates. rewrite Hpref. fold pre. fold narrowed.
    now rewrite Hn. }
  assert (Hnn : narrowed <> [] -> candidates allProducts spec = narrowed).
  { intro Hn. unfold candidates. rewrite Hpref. fold pre. fold narrowed.
    apply nonEmpty_true in Hn. now rewrite Hn. }
  split; [apply filterByEcoPreferences_filter|]. split; [|split].
  - intro Hn. split; [auto|]. unfold findMatchingProducts. now rewrite Hne.
  - intro Hn. split; [auto|]. unfold findMatchingProducts. now rewrite Hnn.
  - intro Hpre.
    assert (Hc : candidates allProducts spec <> []).
    { destruct narrowed eqn:E; [rewrite Hne; auto|].
      rewrite Hnn; [|discriminate]. discriminate. }
    split; [exact Hc|].
    unfold findMatchingProducts. rewrite sortBy_nil_iff.
    intro Hm. apply map_eq_nil in Hm. contradiction.
Qed.

Lemma eco_preference_degrades_gracefully_witness :
  candidates [ lumberProduct; steelProduct ] ecoSpec
  = [ lumberProduct; steelProduct ]
  /\ candidates [ lumberProduct; premiumLumber ] ecoSpec = [ premiumLumber ].
Proof.
  split.
  - exact (proj1 (proj1 (proj2
             (eco_preference_degrades_gracefully
                [ lumberProduct; steelProduct ] ecoSpec eq_refl)) eq_refl)).
  - refine (proj1 (proj1 (proj2 (proj2
              (eco_preference_degrades_gracefully
                 [ lumberProduct; premiumLumber ] ecoSpec eq_refl))) _)).
    discriminate.
Defined.

(** C4: the list returned by [findMatchingProducts] is ordered by
    non-increasing [matchScore], and the sort is stable: for every score,
    the results with that score are the scored candidates with that score,
    in the order the filter chain left them. *)
Theorem findMatchingProducts_sorted_stable (allProducts : list Product)
  (spec : ProjectSpecification) :
  let scored :=
    map (fun p => calculateMatchScore p spec) (candidates allProducts spec) in
  StronglySorted (fun a b => matchScore b <= matchScore a)
    (findMatchingProducts allProducts spec)
  /\ Permutation (findMatchingProducts allProducts spec) scored
  /\ forall v : Z,
      filter (fun m => matchScore m =? v) (findMatchingProducts allProducts spec)
      = filter (fun m => matchScore m =? v) scored.
Proof.
  intro scored. unfold findMatchingProducts. fold scored.
  split; [apply sortBy_sorted|].
  split; [apply sortBy_perm|].
  intro v. apply sortBy_withScore.
Qed.

(** ** Shipping estimator *)

Lemma includes_In xs x : Js.includes xs x = true <-> In x xs.
Proof.
  unfold Js.includes. rewrite existsb_exists. split.
  - intros [y [Hy He]]. apply String.eqb_eq in He. now subst.
  - intro H. exists x. split; [assumption|apply String.eqb_refl].
Qed.

Lemma regionLoop_regionOf w d : regionLoop w d = (regionOf w, regionOf d).
Proof.
  unfold regionLoop, regionOf.
  generalize (@None string) at 1 3 as a. generalize (@None string) as b.
  induction regions as [|[r states] l IH]; intros b a; [reflexivity|].
  simpl. apply IH.
Qed.

Section RegionFold.

Variable x : string.

Lemma fold_region_none l :
  (forall entry, In entry l -> Js.includes (snd entry) x = false) ->
  forall acc, fold_left (regionPick x) l acc = acc.
Proof.
  induction l as [|e l IH]; intros H acc; [reflexivity|].
  simpl. unfold regionPick at 2. rewrite (H e (or_introl eq_refl)).
  apply IH. intros; apply H; now right.
Qed.

Lemma fold_region_some l acc r :
  fold_left (regionPick x) l acc = Some r ->
  acc = Some r
  \/ exists states, In (r, states) l /\ Js.includes states x = true.
Proof.
  revert acc. induction l as [|[r' states] l IH]; intros acc H; [now left|].
  simpl in H. apply IH in H. destruct H as [H|[st [Hin Hx]]].
  - unfold regionPick in H; simpl in H.
    destruct (Js.includes states x) eqn:E; [|now left].
    injection H as ->. right. exists states. split; [now left|assumption].
  - right. exists st. split; [now right|assumption].
Qed.

End RegionFold.

Lemma regionOf_none x : inAnyGrouping x = false -> regionOf x = None.
Proof.
  intro H. unfold regionOf. apply fold_region_none.
  intros entry Hin.
  destruct (Js.includes (snd entry) x) eqn:E; [|reflexivity].
  unfold inAnyGrouping in H.
  assert (existsb (fun e : string * list string => Js.includes (snd e) x)
            regions = true) as Hex
      by (apply existsb_exists; exists entry; auto).
  congruence.
Qed.

(** The groupings are disjoint, so a code listed by an entry is left with
    that entry's name. *)
Lemma regionOf_listed x r states :
  In (r, states) regions -> Js.includes states x = true -> regionOf x = Some r.
Proof.
  intros Hin Hx. apply includes_In in Hx.
  unfold regions in Hin. simpl in Hin.
  repeat (destruct Hin as [Hin|Hin];
          [ injection Hin as <- <-; simpl in Hx;
            repeat (destruct Hx as [<-|Hx]; [reflexivity|]); contradiction
          | ]).
  contradiction.
Qed.

Lemma regionOf_some x r :
  regionOf x = Some r <->
  exists states, In (r, states) regions /\ Js.includes states x = true.
Proof.
  split.
  - intro H. apply fold_region_some in H. destruct H as [H|H]; [discriminate|].
    exact H.
  - intros [states [Hin Hx]]. eapply regionOf_listed; eauto.
Qed.

Lemma shareProperGrouping_regionOf a b :
  shareProperGrouping a b = true <->
  exists r, r <> "other" /\ regionOf a = Some r /\ regionOf b = Some r.
Proof.
  unfold shareProperGrouping. rewrite existsb_exists. split.
  - intros [[r states] [Hin H]]. simpl in H.
    apply andb_true_iff in H. destruct H as [H Hb].
    apply andb_true_iff in H. destruct H as [Hr Ha].
    exists r. repeat split.
    + intro E. subst r. discriminate.
    + eapply regionOf_listed; eauto.
    + eapply regionOf_listed; eauto.
  - intros [r [Hr [Ha Hb]]].
    apply regionOf_some in Ha. destruct Ha as [states [Hin Ha]].
    exists (r, states). split; [assumption|]. simpl.
    apply regionOf_some in Hb. destruct Hb as [states' [Hin' Hb]].
    assert (states' = states) as ->.
    { clear - Hin Hin'. unfold regions in *. simpl in *.
      repeat (destruct Hin as [Hin|Hin];
              [ injection Hin as <- <-;
                repeat (destruct Hin' as [Hin'|Hin'];
                        [congruence|]);
                contradiction
              | ]).
      contradiction. }
    rewrite Ha, Hb.
    destruct (String.eqb_spec r "other"); [contradiction|reflexivity].
Qed.

Lemma region_eqb_eq a b : region_eqb a b = true <-> a = b.
Proof.
  destruct a, b; simpl; try (split; congruence).
  rewrite String.eqb_eq. split; congruence.
Qed.

(** The test of the reduction, read on the groupings. *)
Lemma reduction_test o d :
  (inAnyGrouping o || inAnyGrouping d)%bool = true ->
  (region_eqb (regionOf o) (regionOf d)
   && negb (region_eqb (regionOf o) (Some "other")))%bool
  = shareProperGrouping o d.
Proof.
  intro Hknown.
  destruct (shareProperGrouping o d) eqn:E.
  - apply shareProperGrouping_regionOf in E. destruct E as [r [Hr [Ho Hd]]].
    rewrite Ho, Hd. simpl. rewrite String.eqb_refl. simpl.
    destruct (String.eqb_spec r "other"); [contradiction|reflexivity].
  - apply andb_false_iff.
    destruct (region_eqb (regionOf o) (regionOf d)) eqn:Eq; [|now left].
    right. apply region_eqb_eq in Eq.
    destruct (regionOf o) as [r|] eqn:Ho.
    + simpl. destruct (String.eqb_spec r "other"); [reflexivity|].
      assert (shareProperGrouping o d = true)
        by (apply shareProperGrouping_regionOf; exists r; auto).
      congruence.
    + exfalso. apply orb_true_iff in Hknown.
      assert (forall x, inAnyGrouping x = true -> regionOf x <> None) as K.
      { intros x Hx. unfold inAnyGrouping in Hx. apply existsb_exists in Hx.
        destruct Hx as [[r states] [Hin Hx]]. simpl in Hx.
        rewrite (regionOf_listed x r states Hin Hx). discriminate. }
      destruct Hknown as [H|H]; apply K in H; congruence.
Qed.

Lemma calculateShippingDays_unfold o d :
  o <> d ->
  calculateShippingDays o d
  = Z.max (5 + (if Js.includes remoteStates o then 3 else 0)
             + (if Js.includes remoteStates d then 3 else 0)
             - (if (region_eqb (regionOf o) (regionOf d)
                    && negb (region_eqb (regionOf o) (Some "other")))%bool
                then 2 else 0)) 2.
Proof.
  intro Hne. unfold calculateShippingDays.
  destruct (String.eqb_spec o d); [contradiction|].
  rewrite regionLoop_regionOf.
  destruct (Js.includes remoteStates o), (Js.includes remoteStates d),
    (region_eqb (regionOf o) (regionOf d)
     && negb (region_eqb (regionOf o) (Some "other")))%bool; reflexivity.
Qed.

(** C5, as the specification words it, fails: Maine is in the remote set and
    shares the north-east grouping with New Hampshire; the code applies the
    same-group reduction (5 + 3 - 2 = 6) where the worded rule withholds it
    (8). *)
Lemma shipping_remote_reduction_counterexample :
  Js.includes remoteStates "ME" = true
  /\ calculateShippingDays "ME" "NH" = 6
  /\ specifiedShippingDays "ME" "NH" = 8.
Proof. repeat split. Qed.

(** C5, amended: equal codes give 2 days; for distinct codes of which at
    least one belongs to a grouping, the result is 5, plus 3 for a remote
    origin, plus 3 for a remote destination, minus 2 exactly when a grouping
    other than ["other"] (Alaska, Hawaii) lists both codes, floored at 2.
    The result is never below 2. *)
Theorem calculateShippingDays_by_grouping (o d : string) :
  (o = d -> calculateShippingDays o d = 2)
  /\ (o <> d -> (inAnyGrouping o || inAnyGrouping d)%bool = true ->
      calculateShippingDays o d
      = Z.max (5 + (if Js.includes remoteStates o then 3 else 0)
                 + (if Js.includes remoteStates d then 3 else 0)
                 - (if shareProperGrouping o d then 2 else 0)) 2)
  /\ 2 <= calculateShippingDays o d.
Proof.
  split; [|split].
  - intros ->. unfold calculateShippingDays. now rewrite String.eqb_refl.
  - intros Hne Hknown.
    rewrite calculateShippingDays_unfold by assumption.
    now rewrite reduction_test.
  - destruct (String.eqb_spec o d) as [->|Hne].
    + unfold calculateShippingDays. rewrite String.eqb_refl. lia.
    + rewrite calculateShippingDays_unfold by assumption. lia.
Qed.

Lemma calculateShippingDays_by_grouping_witness :
  calculateShippingDays "WY" "MT" = 9 /\ calculateShippingDays "AK" "HI" = 11.
Proof.
  split.
  - exact (proj1 (proj2 (calculateShippingDays_by_grouping "WY" "MT"))
             ltac:(discriminate) eq_refl).
  - exact (proj1 (proj2 (calculateShippingDays_by_grouping "AK" "HI"))
             ltac:(discriminate) eq_refl).
Defined.

(** C10: two distinct codes that are neither remote nor listed by any
    grouping ship in 3 days: both are left without a grouping, the two
    absent groupings compare equal and differ from ["other"], and the
    reduction of 2 applies to the base of 5. *)
Theorem calculateShippingDays_unlisted (o d : string) :
  o <> d ->
  Js.includes remoteStates o = false ->
  Js.includes remoteStates d = false ->
  inAnyGrouping o = false ->
  inAnyGrouping d = false ->
  regionLoop o d = (None, None) /\ calculateShippingDays o d = 3.
Proof.
  intros Hne Hro Hrd Ho Hd.
  rewrite regionLoop_regionOf.
  rewrite calculateShippingDays_unfold by assumption.
  rewrite Hro, Hrd, (regionOf_none o Ho), (regionOf_none d Hd).
  split; reflexivity.
Qed.

Lemma calculateShippingDays_unlisted_witness :
  regionLoop "XX" "ZZ" = (None, None) /\ calculateShippingDays "XX" "ZZ" = 3.
Proof.
  apply (calculateShippingDays_unlisted "XX" "ZZ");
    [discriminate|reflexivity..].
Defined.

(** ** Project analyzer *)

Section DictFacts.

Context {V : Type}.
Implicit Types (d : Dict.t V) (k : string) (v : V).

Lemma getOwn_set d k v c :
  Dict.getOwn c (Dict.set k v d)
  = if String.eqb c k then Some v else Dict.getOwn c d.
Proof.
  induction d as [|[k' w] d IH]; simpl.
  - destruct (String.eqb_spec c k); reflexivity.
  - destruct (String.eqb_spec k k') as [->|Hk]; simpl.
    + destruct (String.eqb_spec c k'); reflexivity.
    + rewrite IH. destruct (String.eqb_spec c k') as [->|Hc]; [|reflexivity].
      destruct (String.eqb_spec k' k); [congruence|reflexivity].
Qed.

Lemma getOwn_None d k : Dict.getOwn k d = None <-> ~ In k (Dict.keys d).
Proof.
  induction d as [|[k' w] d IH]; simpl; [tauto|].
  destruct (String.eqb_spec k k') as [->|Hk].
  - split; [discriminate|]. intro H. exfalso. apply H. now left.
  - rewrite IH. split; intro H; [intros [E|I]; [congruence|tauto]|tauto].
Qed.

Lemma In_keys_set d k v c :
  In c (Dict.keys (Dict.set k v d)) <-> c = k \/ In c (Dict.keys d).
Proof.
  induction d as [|[k' w] d IH]; simpl.
  - intuition congruence.
  - destruct (String.eqb_spec k k') as [->|Hk]; simpl.
    + intuition congruence.
    + rewrite IH. intuition congruence.
Qed.

Lemma NoDup_keys_set d k v :
  NoDup (Dict.keys d) -> NoDup (Dict.keys (Dict.set k v d)).
Proof.
  induction d as [|[k' w] d IH]; simpl; intro H.
  - constructor; [intros []|constructor].
  - inversion H as [|? ? Hnin Hnd]; subst.
    destruct (String.eqb_spec k k') as [->|Hk]; simpl.
    + now constructor.
    + constructor; [|auto]. rewrite In_keys_set. intuition congruence.
Qed.

Lemma set_absent d k v :
  ~ In k (Dict.keys d) -> Dict.set k v d = d ++ [ (k, v) ].
Proof.
  induction d as [|[k' w] d IH]; simpl; intro H; [reflexivity|].
  destruct (String.eqb_spec k k') as [->|Hk]; [tauto|].
  rewrite IH by tauto. reflexivity.
Qed.

End DictFacts.

Section Grouping.

Lemma filter_snoc {A} (f : A -> bool) l x :
  filter f (l ++ [ x ]) = filter f l ++ (if f x then [ x ] else []).
Proof. rewrite filter_app. reflexivity. Qed.

Lemma nonEmpty_snoc {A} (l : list A) x : nonEmpty (l ++ [ x ]) = true.
Proof. destruct l; reflexivity. Qed.

Lemma groupStep_Grouped d done m d' :
  Grouped d done -> groupStep d m = Returned d' -> Grouped d' (done ++ [ m ]).
Proof.
  intros [Hnd Hget] Hstep. unfold groupStep in Hstep.
  set (k := category (product m)) in *.
  assert (Hk : forall c, inCategory c m = String.eqb c k).
  { intro c. unfold inCategory. fold k. apply String.eqb_sym. }
  pose proof (Hget k) as Hgk. cbv zeta in Hgk.
  destruct (Dict.getOwn k d) as [arr|] eqn:Eg.
  - injection Hstep as <-. split; [now apply NoDup_keys_set|].
    intro c. cbv zeta. rewrite getOwn_set, filter_snoc, Hk.
    destruct (String.eqb_spec c k) as [->|Hc].
    + destruct (nonEmpty (filter (inCategory k) done)); [|discriminate].
      injection Hgk as ->. now rewrite nonEmpty_snoc.
    + rewrite app_nil_r. apply Hget.
  - destruct (Dict.inherited k); [discriminate|].
    injection Hstep as <-. split; [now apply NoDup_keys_set|].
    intro c. cbv zeta. rewrite getOwn_set, filter_snoc, Hk.
    destruct (String.eqb_spec c k) as [->|Hc].
    + destruct (filter (inCategory k) done); [reflexivity|discriminate].
    + rewrite app_nil_r. apply Hget.
Qed.

Lemma forEach_Grouped ms : forall d done d',
  Grouped d done -> forEachM groupStep ms d = Returned d' ->
  Grouped d' (done ++ ms).
Proof.
  induction ms as [|m ms IH]; intros d done d' HG H; simpl in H.
  - injection H as <-. now rewrite app_nil_r.
  - destruct (groupStep d m) as [d1|] eqn:E; [|discriminate]. simpl in H.
    replace (done ++ m :: ms) with ((done ++ [ m ]) ++ ms)
      by (rewrite <- app_assoc; reflexivity).
    eapply IH; [|exact H]. eapply groupStep_Grouped; eauto.
Qed.

Lemma groupByCategory_Grouped ms d :
  groupByCategory ms = Returned d -> Grouped d ms.
Proof.
  intro H. apply (forEach_Grouped ms [] [] d); [|exact H].
  split; [constructor|reflexivity].
Qed.

(** The grouping throws exactly when some match has a category whose name
    is inherited from [Object.prototype]. *)
Lemma forEach_group_returns ms : forall d,
  (forall m, In m ms -> Dict.inherited (category (product m)) = false) ->
  exists d', forEachM groupStep ms d = Returned d'.
Proof.
  induction ms as [|m ms IH]; intros d H; simpl; [eauto|].
  unfold groupStep at 1. rewrite (H m (or_introl eq_refl)).
  destruct (Dict.getOwn _ d); simpl; apply IH; intros; apply H; now right.
Qed.

Lemma forEach_group_throws ms : forall d,
  (forall k, In k (Dict.keys d) -> Dict.inherited k = false) ->
  (exists m, In m ms /\ Dict.inherited (category (product m)) = true) ->
  forEachM groupStep ms d = TypeError.
Proof.
  induction ms as [|m ms IH]; intros d Hd [x [Hin Hx]]; [destruct Hin|].
  simpl. unfold groupStep at 1.
  destruct (Dict.getOwn (category (product m)) d) as [arr|] eqn:Eg.
  - simpl. assert (In x ms) as Hin'.
    { destruct Hin as [->|]; [|assumption]. exfalso.
      assert (In (category (product x)) (Dict.keys d)) as Hk.
      { destruct (in_dec string_dec (category (product x)) (Dict.keys d))
          as [|Hn]; [assumption|].
        apply getOwn_None in Hn. congruence. }
      apply Hd in Hk. congruence. }
    apply IH; [|eauto].
    intros k Hk. apply In_keys_set in Hk. destruct Hk as [->|Hk]; [|auto].
    apply Hd.
    destruct (in_dec string_dec (category (product m)) (Dict.keys d))
      as [|Hn]; [assumption|].
    apply getOwn_None in Hn. congruence.
  - destruct (Dict.inherited (category (product m))) eqn:Ei; [reflexivity|].
    simpl. destruct Hin as [->|Hin]; [congruence|].
    apply IH; [|eauto].
    intros k Hk. apply In_keys_set in Hk. destruct Hk as [->|Hk]; auto.
Qed.

End Grouping.

Section Breakdown.

Lemma keys_app {V} (a b : Dict.t V) :
  Dict.keys (a ++ b) = Dict.keys a ++ Dict.keys b.
Proof. apply map_app. Qed.

Lemma sumOfCosts_app a b : sumOfCosts (a ++ b) = sumOfCosts a + sumOfCosts b.
Proof.
  induction a as [|e a IH]; simpl; [reflexivity|]. rewrite IH. lia.
Qed.

(** The second loop writes one entry per key of the grouping and adds the
    cost of each entry to the total. *)
Lemma breakdown_fold d : forall acc total,
  NoDup (Dict.keys acc ++ Dict.keys d) ->
  fold_left breakdownStep d (acc, total)
  = (acc ++ entriesOf d, total + sumOfCosts (entriesOf d)).
Proof.
  induction d as [|[c arr] d IH]; intros acc total Hnd; simpl.
  - rewrite app_nil_r. f_equal. lia.
  - destruct arr as [|best rest]; simpl.
    + apply IH. simpl in Hnd. eapply NoDup_remove_1; exact Hnd.
    + simpl in Hnd. rewrite set_absent.
      * rewrite IH.
        -- rewrite <- app_assoc. simpl. f_equal. lia.
        -- rewrite keys_app. simpl. rewrite <- app_assoc. exact Hnd.
      * apply NoDup_remove_2 in Hnd. intro H. apply Hnd.
        apply in_or_app. now left.
Qed.

Lemma getOwn_entriesOf d c :
  NoDup (Dict.keys d) ->
  Dict.getOwn c (entriesOf d)
  = match Dict.getOwn c d with
    | Some (best :: _) => Some (entryOf best)
    | _ => None
    end.
Proof.
  induction d as [|[k arr] d IH]; intro Hnd; [reflexivity|].
  inversion Hnd as [|? ? Hnin Hnd']; subst. specialize (IH Hnd').
  simpl. destruct (String.eqb_spec c k) as [->|Hc].
  - apply getOwn_None in Hnin. rewrite Hnin in IH.
    destruct arr as [|best rest]; simpl; [exact IH|].
    now rewrite String.eqb_refl.
  - destruct arr as [|best rest]; simpl; [exact IH|].
    destruct (String.eqb_spec c k); [contradiction|exact IH].
Qed.

Lemma keys_entriesOf_incl d k :
  In k (Dict.keys (entriesOf d)) -> In k (Dict.keys d).
Proof.
  induction d as [|[c arr] d IH]; simpl; [tauto|].
  destruct arr; simpl; intuition.
Qed.

Lemma NoDup_keys_entriesOf d :
  NoDup (Dict.keys d) -> NoDup (Dict.keys (entriesOf d)).
Proof.
  induction d as [|[c arr] d IH]; simpl; intro H; [constructor|].
  inversion H; subst. destruct arr; simpl; [auto|].
  constructor; [|auto]. intro Hin. apply keys_entriesOf_incl in Hin. tauto.
Qed.

Lemma head_filter_find {A} (f : A -> bool) l :
  match filter f l with x :: _ => Some x | [] => None end = find f l.
Proof.
  induction l as [|a l IH]; simpl; [reflexivity|].
  destruct (f a); [reflexivity|exact IH].
Qed.

End Breakdown.

Section Analysis.

Variables (ms : list ProductMatch) (spec : ProjectSpecification).

Lemma checkBudget_keeps a :
  categoryBreakdown (checkBudget spec a) = categoryBreakdown a
  /\ estimatedTotalCost (checkBudget spec a) = estimatedTotalCost a
  /\ timelineAnalysis (checkBudget spec a) = timelineAnalysis a.
Proof.
  unfold checkBudget. destruct (maxBudget spec); [|auto].
  destruct (_ && _)%bool; auto.
Qed.

Lemma checkLate_keeps a :
  categoryBreakdown (checkLate ms a) = categoryBreakdown a
  /\ estimatedTotalCost (checkLate ms a) = estimatedTotalCost a.
Proof. unfold checkLate. destruct (nonEmpty _); auto. Qed.

Lemma checkMissing_keeps a :
  categoryBreakdown (checkMissing spec a) = categoryBreakdown a
  /\ estimatedTotalCost (checkMissing spec a) = estimatedTotalCost a
  /\ timelineAnalysis (checkMissing spec a) = timelineAnalysis a.
Proof.
  unfold checkMissing. destruct (requiredCategories spec); [|auto].
  destruct (nonEmpty _); auto.
Qed.

Lemma buildAnalysis_breakdown d :
  NoDup (Dict.keys d) ->
  categoryBreakdown (buildAnalysis ms spec d) = entriesOf d
  /\ estimatedTotalCost (buildAnalysis ms spec d) = sumOfCosts (entriesOf d).
Proof.
  intro Hnd. unfold buildAnalysis.
  rewrite breakdown_fold by exact Hnd. simpl app. cbv zeta.
  destruct (checkMissing_keeps
              (checkLate ms (checkBudget spec
                 {| specification := spec;
                    recommendedProducts := ms;
                    estimatedTotalCost := 0 + sumOfCosts (entriesOf d);
                    categoryBreakdown := entriesOf d;
                    timelineAnalysis :=
                      {| feasible := true; criticalPath := [];
                         concerns := [] |};
                    risks := [];
                    recommendations := [] |}))) as [-> [-> _]].
  destruct (checkLate_keeps
              (checkBudget spec
                 {| specification := spec;
                    recommendedProducts := ms;
                    estimatedTotalCost := 0 + sumOfCosts (entriesOf d);
                    categoryBreakdown := entriesOf d;
                    timelineAnalysis :=
                      {| feasible := true; criticalPath := [];
                         concerns := [] |};
                    risks := [];
                    recommendations := [] |})) as [-> ->].
  destruct (checkBudget_keeps
              {| specification := spec;
                 recommendedProducts := ms;
                 estimatedTotalCost := 0 + sumOfCosts (entriesOf d);
                 categoryBreakdown := entriesOf d;
                 timelineAnalysis :=
                   {| feasible := true; criticalPath := []; concerns := [] |};
                 risks := [];
                 recommendations := [] |}) as [-> [-> _]].
  simpl. split; [reflexivity|lia].
Qed.

Lemma analyzeProject_Returned a :
  analyzeProject ms spec = Returned a ->
  exists d, Grouped d ms /\ a = buildAnalysis ms spec d.
Proof.
  unfold analyzeProject. intro H.
  destruct (groupByCategory ms) as [d|] eqn:E; [|discriminate].
  simpl in H. injection H as <-.
  exists d. split; [now apply groupByCategory_Grouped|reflexivity].
Qed.

(** Every entry of the breakdown is the entry of the first match of its
    category, and categories without a match have no entry. *)
Lemma analyzeProject_breakdown a :
  analyzeProject ms spec = Returned a ->
  NoDup (Dict.keys (categoryBreakdown a))
  /\ (forall c,
       Dict.getOwn c (categoryBreakdown a)
       = option_map entryOf (firstOfCategory c ms))
  /\ estimatedTotalCost a = sumOfCosts (categoryBreakdown a).
Proof.
  intro H. apply analyzeProject_Returned in H.
  destruct H as [d [[Hnd Hget] ->]].
  destruct (buildAnalysis_breakdown d Hnd) as [-> ->].
  split; [now apply NoDup_keys_entriesOf|]. split; [|reflexivity].
  intro c. rewrite getOwn_entriesOf by exact Hnd.
  rewrite Hget. cbv zeta. unfold firstOfCategory.
  rewrite <- head_filter_find.
  destruct (filter (inCategory c) ms); reflexivity.
Qed.

End Analysis.

Lemma analyzeProject_returns ms spec :
  (forall m, In m ms -> Dict.inherited (category (product m)) = false) ->
  exists d, groupByCategory ms = Returned d
            /\ analyzeProject ms spec = Returned (buildAnalysis ms spec d).
Proof.
  intro H. destruct (forEach_group_returns ms [] H) as [d Hd].
  exists d. split; [exact Hd|]. unfold analyzeProject, groupByCategory.
  now rewrite Hd.
Qed.

Lemma first_is_best (c : string) (ms : list ProductMatch) (best : ProductMatch) :
  StronglySorted (fun a b => matchScore b <= matchScore a) ms ->
  firstOfCategory c ms = Some best ->
  In best ms /\ category (product best) = c
  /\ forall m, In m ms -> category (product m) = c ->
               matchScore m <= matchScore best.
Proof.
  unfold firstOfCategory. intros Hs Hf.
  split; [eapply find_some; eauto|].
  split; [apply find_some in Hf; apply String.eqb_eq; apply Hf|].
  induction Hs as [|x l Hs IH Hall]; [discriminate|].
  simpl in Hf. intros m Hin Hm.
  destruct (inCategory c x) eqn:Ex.
  - injection Hf as <-. destruct Hin as [->|Hin]; [lia|].
    rewrite Forall_forall in Hall. now apply Hall.
  - destruct Hin as [->|Hin]; [|now apply IH].
    unfold inCategory in Ex. rewrite Hm, String.eqb_refl in Ex. discriminate.
Qed.

Lemma getOwn_Some_In {V} (d : Dict.t V) k v :
  Dict.getOwn k d = Some v -> In k (Dict.keys d).
Proof.
  intro H. destruct (in_dec string_dec k (Dict.keys d)) as [|Hn]; [assumption|].
  apply getOwn_None in Hn. congruence.
Qed.

Lemma In_keys_getOwn {V} (d : Dict.t V) k :
  In k (Dict.keys d) -> exists v, Dict.getOwn k d = Some v.
Proof.
  intro H. destruct (Dict.getOwn k d) eqn:E; [eauto|].
  apply getOwn_None in E. contradiction.
Qed.

(** Among the candidates of its category that reach its score, the first
    match of a category in the ranking is the first one the filter chain
    delivered: the sort does not reorder equal scores. *)
Lemma find_refine {A} (f g : A -> bool) l x :
  find f l = Some x -> g x = true ->
  find (fun y => (f y && g y)%bool) l = Some x.
Proof.
  induction l as [|a l IH]; simpl; [discriminate|].
  destruct (f a) eqn:Ef; simpl.
  - intros [= ->] Hg. now rewrite Hg.
  - auto.
Qed.

Lemma first_in_chain_order allProducts spec c best :
  firstOfCategory c (findMatchingProducts allProducts spec) = Some best ->
  find (fun m => inCategory c m && (matchScore m =? matchScore best))%bool
    (map (fun p => calculateMatchScore p spec) (candidates allProducts spec))
  = Some best.
Proof.
  unfold firstOfCategory, findMatchingProducts. intro Hf.
  set (scored := map _ (candidates allProducts spec)) in *.
  apply find_refine with (g := fun m => matchScore m =? matchScore best) in Hf;
    [|apply Z.eqb_refl].
  rewrite <- head_filter_find in Hf |- *.
  assert (E : forall l,
             filter (fun m => (inCategory c m
                               && (matchScore m =? matchScore best))%bool) l
             = filter (inCategory c) (withScore (matchScore best) l)).
  { intro l. unfold withScore. rewrite filter_filter.
    apply filter_ext. intro m. apply andb_comm. }
  rewrite E in Hf |- *. now rewrite sortBy_withScore in Hf.
Qed.

(** C7: for a match list ordered by non-increasing [matchScore], the
    [categoryBreakdown] of the analysis has at most one entry per category
    and only for categories that occur among the matches; the cost of an
    entry is the price of the first match of its category in the list, which
    has the highest score of the category and, for a list produced by
    [findMatchingProducts], comes first in filter-chain order among the
    candidates of the category with that score; and [estimatedTotalCost] is
    the sum of the costs of the entries.  The analysis exists whenever no
    category is a name inherited from [Object.prototype]. *)
Theorem categoryBreakdown_best_per_category (ms : list ProductMatch)
  (spec : ProjectSpecification) :
  StronglySorted (fun x y => matchScore y <= matchScore x) ms ->
  ((forall m, In m ms -> Dict.inherited (category (product m)) = false) ->
   exists a, analyzeProject ms spec = Returned a)
  /\ forall a, analyzeProject ms spec = Returned a ->
      NoDup (Dict.keys (categoryBreakdown a))
      /\ (forall c, In c (Dict.keys (categoryBreakdown a)) <->
                    exists m, In m ms /\ category (product m) = c)
      /\ (forall c e, Dict.getOwn c (categoryBreakdown a) = Some e ->
            exists best,
              firstOfCategory c ms = Some best
              /\ bd_cost e = price (product best)
              /\ bd_product e = productName (product best)
              /\ (forall m, In m ms -> category (product m) = c ->
                            matchScore m <= matchScore best)
              /\ forall allProducts,
                  ms = findMatchingProducts allProducts spec ->
                  find (fun m => inCategory c m
                                 && (matchScore m =? matchScore best))%bool
                    (map (fun p => calculateMatchScore p spec)
                       (candidates allProducts spec))
                  = Some best)
      /\ estimatedTotalCost a = sumOfCosts (categoryBreakdown a).
Proof.
  intros Hs. split.
  { intro H. destruct (analyzeProject_returns ms spec H) as [d [_ Ha]]. eauto. }
  intros a Ha.
  destruct (analyzeProject_breakdown ms spec a Ha) as [Hnd [Hget Hsum]].
  split; [exact Hnd|]. split; [|split; [|exact Hsum]].
  - intro c. split.
    + intro Hin. apply In_keys_getOwn in Hin. destruct Hin as [e He].
      rewrite Hget in He.
      destruct (firstOfCategory c ms) as [best|] eqn:Ef; [|discriminate].
      destruct (first_is_best c ms best Hs Ef) as [Hin [Hc _]]. eauto.
    + intros [m [Hin Hc]].
      destruct (firstOfCategory c ms) as [best|] eqn:Ef.
      * apply getOwn_Some_In with (v := entryOf best).
        now rewrite Hget, Ef.
      * unfold firstOfCategory in Ef. eapply find_none in Ef; [|exact Hin].
        unfold inCategory in Ef. rewrite Hc, String.eqb_refl in Ef.
        discriminate.
  - intros c e He. rewrite Hget in He.
    destruct (firstOfCategory c ms) as [best|] eqn:Ef; [|discriminate].
    injection He as <-. exists best.
    destruct (first_is_best c ms best Hs Ef) as [_ [_ Hbest]].
    repeat split; auto.
    intros allProducts ->. now apply first_in_chain_order.
Qed.

Lemma categoryBreakdown_best_per_category_witness :
  exists a,
    analyzeProject
      (findMatchingProducts [ lumberProduct; steelProduct; premiumLumber ]
         residentialSpec) residentialSpec = Returned a
    /\ Dict.keys (categoryBreakdown a) = [ "Lumber"; "Steel" ]
    /\ NoDup (Dict.keys (categoryBreakdown a))
    /\ estimatedTotalCost a = sumOfCosts (categoryBreakdown a).
Proof.
  pose proof (categoryBreakdown_best_per_category
                (findMatchingProducts
                   [ lumberProduct; steelProduct; premiumLumber ]
                   residentialSpec)
                residentialSpec (sortBy_sorted _)) as [_ H].
  eexists. split; [vm_compute; reflexivity|].
  split; [reflexivity|].
  split; [|reflexivity].
  eapply H. vm_compute. reflexivity.
Defined.

(** ** Analyzer: risks and failure *)

Lemma analyzeProject_throws ms spec m :
  In m ms -> Dict.inherited (category (product m)) = true ->
  analyzeProject ms spec = TypeError.
Proof.
  intros Hin Hm. unfold analyzeProject, groupByCategory.
  rewrite forEach_group_throws; [reflexivity|intros k []|eauto].
Qed.

Section Risks.

Variables (ms : list ProductMatch) (spec : ProjectSpecification).

Lemma checkBudget_risks a :
  budgetTruthy (maxBudget spec) = false ->
  risks (checkBudget spec a) = risks a.
Proof.
  intro H. unfold checkBudget. rewrite H.
  destruct (maxBudget spec); reflexivity.
Qed.

Lemma checkBudget_other_risks a f :
  (forall c b, f (CostExceedsBudget c b) = false) ->
  filter f (risks (checkBudget spec a)) = filter f (risks a).
Proof.
  intro Hf. unfold checkBudget. destruct (maxBudget spec); [|reflexivity].
  destruct (_ && _)%bool; [|reflexivity].
  simpl. rewrite filter_app. simpl. rewrite Hf. apply app_nil_r.
Qed.

Lemma checkLate_other_risks a f :
  (forall n, f (CannotMeetTimeline n) = false) ->
  filter f (risks (checkLate ms a)) = filter f (risks a).
Proof.
  intro Hf. unfold checkLate. destruct (nonEmpty _); [|reflexivity].
  simpl. rewrite filter_app. simpl. rewrite Hf. apply app_nil_r.
Qed.

Lemma checkMissing_other_risks a f :
  (forall l, f (NoProductsForCategories l) = false) ->
  filter f (risks (checkMissing spec a)) = filter f (risks a).
Proof.
  intro Hf. unfold checkMissing. destruct (requiredCategories spec);
    [|reflexivity].
  destruct (nonEmpty _); [|reflexivity].
  simpl. rewrite filter_app. simpl. rewrite Hf. apply app_nil_r.
Qed.

Lemma checkMissing_risks a :
  requiredCategories spec = None \/ requiredCategories spec = Some [] ->
  risks (checkMissing spec a) = risks a.
Proof.
  intro H. unfold checkMissing. destruct H as [-> | ->]; reflexivity.
Qed.

(** The risks of the analysis built from a grouping [d]. *)
Lemma buildAnalysis_risks d :
  (budgetTruthy (maxBudget spec) = false ->
   filter isBudgetRisk (risks (buildAnalysis ms spec d)) = [])
  /\ (requiredCategories spec = None \/ requiredCategories spec = Some [] ->
      filter isMissingCategoryRisk (risks (buildAnalysis ms spec d)) = [])
  /\ (filter (fun m => negb (meetsTimeline m)) ms = [] ->
      filter isTimelineRisk (risks (buildAnalysis ms spec d)) = []
      /\ feasible (timelineAnalysis (buildAnalysis ms spec d)) = true).
Proof.
  unfold buildAnalysis.
  destruct (fold_left breakdownStep d ([], 0)) as [breakdown total].
  cbv zeta.
  set (a0 := {| specification := spec; recommendedProducts := ms;
                estimatedTotalCost := total; categoryBreakdown := breakdown;
                timelineAnalysis :=
                  {| feasible := true; criticalPath := []; concerns := [] |};
                risks := []; recommendations := [] |}).
  split; [|split].
  - intro Hb.
    rewrite checkMissing_other_risks, checkLate_other_risks by reflexivity.
    now rewrite checkBudget_risks.
  - intro Hc. rewrite checkMissing_risks by exact Hc.
    rewrite checkLate_other_risks, checkBudget_other_risks by reflexivity.
    reflexivity.
  - intro Hlate. split.
    + rewrite checkMissing_other_risks by reflexivity.
      unfold checkLate. rewrite Hlate. simpl nonEmpty. cbv iota.
      now rewrite checkBudget_other_risks by reflexivity.
    + destruct (checkMissing_keeps spec (checkLate ms (checkBudget spec a0)))
        as [_ [_ ->]].
      unfold checkLate. rewrite Hlate. simpl nonEmpty. cbv iota.
      destruct (checkBudget_keeps spec a0) as [_ [_ ->]]. reflexivity.
Qed.

End Risks.

(** The part of the failure semantics that holds: when no category of the
    match list is a name inherited from [Object.prototype],
    [analyzeProject] returns; without a budget there is no budget risk,
    without required categories no missing-category risk, and the empty
    match list gives cost 0, a feasible timeline and no risk at all. *)
Lemma analyzeProject_degrades_gracefully (ms : list ProductMatch)
  (spec : ProjectSpecification) :
  (forall m, In m ms -> Dict.inherited (category (product m)) = false) ->
  exists a,
    analyzeProject ms spec = Returned a
    /\ (budgetTruthy (maxBudget spec) = false ->
        filter isBudgetRisk (risks a) = [])
    /\ (requiredCategories spec = None \/ requiredCategories spec = Some [] ->
        filter isMissingCategoryRisk (risks a) = [])
    /\ (ms = [] ->
        estimatedTotalCost a = 0
        /\ categoryBreakdown a = []
        /\ feasible (timelineAnalysis a) = true
        /\ filter isTimelineRisk (risks a) = []).
Proof.
  intro H. destruct (analyzeProject_returns ms spec H) as [d [Hd Ha]].
  exists (buildAnalysis ms spec d). split; [exact Ha|].
  destruct (buildAnalysis_risks ms spec d) as [Hb [Hm Ht]].
  split; [exact Hb|]. split; [exact Hm|].
  intros ->. destruct (Ht eq_refl) as [Hr Hf].
  injection Hd as <-.
  destruct (buildAnalysis_breakdown [] spec [] (NoDup_nil _)) as [Hbd Hcost].
  repeat split; assumption.
Qed.

(** C8, where the code departs from the specification (the analysis never
    raises an error): a catalog row whose category is ["constructor"]
    passes the filters and is scored, and the analysis of the resulting
    match list throws instead of returning.  The grouping reads the
    inherited [constructor] of the fresh object, takes it for an existing
    bucket and calls its missing [push]. *)
Theorem analyzeProject_throws_on_inherited_category :
  findMatchingProducts [ inheritedCategoryProduct ] residentialSpec
  = [ calculateMatchScore inheritedCategoryProduct residentialSpec ]
  /\ analyzeProject
       (findMatchingProducts [ inheritedCategoryProduct ] residentialSpec)
       residentialSpec
     = TypeError.
Proof.
  split; [reflexivity|].
  apply analyzeProject_throws
    with (m := calculateMatchScore inheritedCategoryProduct residentialSpec);
    [now left|reflexivity].
Qed.

(** ** Scenario A *)

(** C2: in Scenario A the product passes the region and the project type
    filters and is the only match, with score 80 = 60 (base) + 10 (project
    type) + 5 (in stock) + 5 (timeline met): shipping takes 2 days, the
    total lead time is 7 days, and neither the installation nor the warranty
    bonus is awarded.  The analysis of the result has an estimated total
    cost of 100 and no risks. *)
Theorem scenario_A (p : Product) (s : ProjectSpecification) :
  ScenarioAProduct p -> ScenarioASpec s ->
  filterByLocation [ p ] (location s) = [ p ]
  /\ filterByProjectType [ p ] (projectType s) = [ p ]
  /\ findMatchingProducts [ p ] s = [ calculateMatchScore p s ]
  /\ matchScore (calculateMatchScore p s) = 80
  /\ matchReasons (calculateMatchScore p s)
     = [ AvailableInLocation; SuitableFor "Residential"; InStock;
         CanDeliverBefore 13 ]
  /\ warnings (calculateMatchScore p s) = []
  /\ estimatedShippingDays (calculateMatchScore p s) = 2
  /\ totalLeadTime (calculateMatchScore p s) = 7
  /\ meetsTimeline (calculateMatchScore p s) = true
  /\ exists a,
      analyzeProject (findMatchingProducts [ p ] s) s = Returned a
      /\ estimatedTotalCost a = 100
      /\ feasible (timelineAnalysis a) = true
      /\ risks a = [].
Proof.
  intros Hp Hs.
  destruct p as [pid pname cat pr stock lead wh rs apt certs eco rec sus war diff].
  destruct s as [pt loc budget start stop rcats rq rcerts ecoP susP cap].
  unfold ScenarioAProduct, ScenarioASpec in *. simpl in Hp, Hs.
  destruct Hp as (-> & -> & -> & -> & Hstock & -> & -> & -> & -> & ->).
  destruct Hs as (-> & -> & -> & -> & -> & Hcats & Hcerts & -> & -> & ->).
  destruct stock as [|stock|stock]; try lia.
  destruct rq, Hcats as [-> | ->], Hcerts as [-> | ->];
    (repeat split; try reflexivity;
     eexists; split; [vm_compute; reflexivity|repeat split; reflexivity]).
Qed.

Lemma scenario_A_witness :
  matchScore (calculateMatchScore lumberProduct residentialSpec) = 80
  /\ exists a,
      analyzeProject (findMatchingProducts [ lumberProduct ] residentialSpec)
        residentialSpec = Returned a
      /\ estimatedTotalCost a = 100
      /\ feasible (timelineAnalysis a) = true
      /\ risks a = [].
Proof.
  assert (Hp : ScenarioAProduct lumberProduct)
    by (unfold ScenarioAProduct; simpl; repeat split; lia).
  assert (Hs : ScenarioASpec residentialSpec)
    by (unfold ScenarioASpec; simpl; repeat split; auto).
  pose proof (scenario_A lumberProduct residentialSpec Hp Hs) as H.
  split; [apply H|]. apply H.
Defined.

(** ** Worked examples *)

(** Scenario B: the end date falls before the delivery; the penalty
    replaces the bonus and the analysis reports the late product. *)
Example scenario_B :
  let spec :=
    {| projectType := "Residential"; location := "CA"; maxBudget := Some 200;
       projectStartDate := 0; projectEndDate := 5 * msPerDay;
       requiredCategories := Some []; requireCertifications := false;
       requiredCertifications := Some []; ecoFriendlyPreference := false;
       sustainablePreference := false;
       installationCapability := "Professional" |} in
  map matchScore (findMatchingProducts [ lumberProduct ] spec) = [ 65 ]
  /\ map meetsTimeline (findMatchingProducts [ lumberProduct ] spec) = [ false ]
  /\ exists a,
      analyzeProject (findMatchingProducts [ lumberProduct ] spec) spec
      = Returned a
      /\ risks a = [ CannotMeetTimeline 1 ]
      /\ feasible (timelineAnalysis a) = false.
Proof.
  repeat split. eexists. split; [vm_compute; reflexivity|]. split; reflexivity.
Qed.

(** Scenario C: a product restricted in the destination is never matched. *)
Example scenario_C :
  findMatchingProducts [ premiumLumber ]
    {| projectType := "Residential"; location := "HI"; maxBudget := None;
       projectStartDate := 0; projectEndDate := 90 * msPerDay;
       requiredCategories := None; requireCertifications := false;
       requiredCertifications := None; ecoFriendlyPreference := false;
       sustainablePreference := false; installationCapability := "DIY" |}
  = [].
Proof. reflexivity. Qed.

(** The ranking of a three-product catalog: the two products that score
    80 keep their catalog order behind the one that scores 83. *)
Example ranking :
  map (fun m => (productId (product m), matchScore m))
    (findMatchingProducts [ lumberProduct; steelProduct; premiumLumber ]
       residentialSpec)
  = [ ("P-002", 83); ("P-001", 80); ("P-003", 67) ].
Proof. reflexivity. Qed.

(** The upper bound of the clamp applies: every bonus at once sums to 108. *)
Example clamp_applies :
  let spec :=
    {| projectType := "Residential"; location := "OR"; maxBudget := None;
       projectStartDate := 0; projectEndDate := 30 * msPerDay;
       requiredCategories := None; requireCertifications := true;
       requiredCertifications := Some [ "FSC Certified"; "FSC Certified" ];
       ecoFriendlyPreference := true; sustainablePreference := true;
       installationCapability := "DIY" |} in
  let timeline :=
    checkTimeline premiumLumber (projectEndDate spec) (location spec)
      (projectStartDate spec) in
  score (scoreBlocks premiumLumber spec timeline) = 108
  /\ matchScore (calculateMatchScore premiumLumber spec) = 100.
Proof. split; reflexivity. Qed.

(** * Further properties *)

(** ** Shipping estimator *)

Lemma region_test_sym (a b : option string) :
  (region_eqb a b && negb (region_eqb a (Some "other")))%bool
  = (region_eqb b a && negb (region_eqb b (Some "other")))%bool.
Proof.
  destruct (region_eqb a b) eqn:E.
  - apply region_eqb_eq in E. subst b.
    replace (region_eqb a a) with true; [reflexivity|].
    symmetry. now apply region_eqb_eq.
  - destruct (region_eqb b a) eqn:E'; [|reflexivity].
    apply region_eqb_eq in E'. subst b.
    assert (region_eqb a a = true) by now apply region_eqb_eq. congruence.
Qed.


(** X1: shipping takes as long in one direction as in the other. *)
Theorem calculateShippingDays_symmetric (o d : string) :
  calculateShippingDays o d = calculateShippingDays d o.
Proof.
  destruct (String.eqb_spec o d) as [->|Hne]; [reflexivity|].
  rewrite (calculateShippingDays_unfold o d) by assumption.
  rewrite (calculateShippingDays_unfold d o) by congruence.
  rewrite (region_test_sym (regionOf o) (regionOf d)).
  destruct (Js.includes remoteStates o), (Js.includes remoteStates d),
    (region_eqb (regionOf d) (regionOf o)
     && negb (region_eqb (regionOf d) (Some "other")))%bool; reflexivity.
Qed.

(** X2: the estimate is 2 days exactly for equal codes; between different
    codes it takes at least 3 and at most 11 days. *)
Theorem calculateShippingDays_range (o d : string) :
  (calculateShippingDays o d = 2 <-> o = d)
  /\ 2 <= calculateShippingDays o d <= 11
  /\ (o <> d -> 3 <= calculateShippingDays o d).
Proof.
  destruct (String.eqb_spec o d) as [->|Hne].
  - assert (calculateShippingDays d d = 2) as ->
      by (unfold calculateShippingDays; now rewrite String.eqb_refl).
    repeat split; auto; try lia. congruence.
  - rewrite calculateShippingDays_unfold by assumption.
    destruct (Js.includes remoteStates o), (Js.includes remoteStates d),
      (region_eqb (regionOf o) (regionOf d)
       && negb (region_eqb (regionOf o) (Some "other")))%bool;
      repeat split; intros; try lia; try contradiction.
Qed.

(** ** Timeline *)

Lemma checkTimeline_fields p requiredDate st orderDate :
  let t := checkTimeline p requiredDate st orderDate in
  tl_estimatedShippingDays t = calculateShippingDays (warehouseLocation p) st
  /\ tl_totalLeadTime t = leadTimeDays p + tl_estimatedShippingDays t
  /\ tl_estimatedDelivery t = addDays orderDate (tl_totalLeadTime t)
  /\ tl_meetsTimeline t = (tl_estimatedDelivery t <=? requiredDate)
  /\ tl_daysMargin t = (requiredDate - tl_estimatedDelivery t) / msPerDay.
Proof. repeat split. Qed.


Lemma checkTimeline_meets_later (p : Product) (st : string)
  (orderDate required required' : Z) :
  required <= required' ->
  tl_meetsTimeline (checkTimeline p required st orderDate) = true ->
  tl_meetsTimeline (checkTimeline p required' st orderDate) = true.
Proof.
  intro Hle. unfold checkTimeline. cbn [tl_meetsTimeline].
  rewrite !Z.leb_le. lia.
Qed.

(** X4: a later required date never turns a met timeline into a missed
    one, and never shrinks the margin. *)
Theorem checkTimeline_monotone (p : Product) (st : string)
  (orderDate required required' : Z) :
  required <= required' ->
  (tl_meetsTimeline (checkTimeline p required st orderDate) = true ->
   tl_meetsTimeline (checkTimeline p required' st orderDate) = true)
  /\ tl_daysMargin (checkTimeline p required st orderDate)
     <= tl_daysMargin (checkTimeline p required' st orderDate).
Proof.
  intro Hle. unfold checkTimeline. cbn [tl_meetsTimeline tl_daysMargin].
  split.
  - rewrite !Z.leb_le. lia.
  - apply Z.div_le_mono; [apply msPerDay_pos|lia].
Qed.

Lemma checkTimeline_monotone_witness :
  tl_daysMargin (checkTimeline lumberProduct (10 * msPerDay) "CA" 0)
  <= tl_daysMargin (checkTimeline lumberProduct (12 * msPerDay) "CA" 0).
Proof.
  apply (checkTimeline_monotone lumberProduct "CA" 0 (10 * msPerDay)
           (12 * msPerDay)).
  vm_compute. discriminate.
Defined.

(** ** Scorer *)

Section ScorerFacts.

Variables (p : Product) (spec : ProjectSpecification).

Lemma scoreBlocks_split tl :
  scoreBlocks p spec tl = scoreTimeline tl (scoreBeforeTimeline p spec).
Proof. reflexivity. Qed.

Lemma scoreBeforeTimeline_range :
  60 <= score (scoreBeforeTimeline p spec) <= 103.
Proof.
  unfold scoreBeforeTimeline.
  pose proof (scoreBase_moves {| score := 0; reasons := []; warns := [] |}) as H0.
  set (s0 := scoreBase _) in *.
  pose proof (scoreProjectType_moves p spec s0) as H1.
  set (s1 := scoreProjectType p spec s0) in *.
  pose proof (scoreCertifications_moves p spec s1) as H2.
  set (s2 := scoreCertifications p spec s1) in *.
  pose proof (scoreEco_moves p spec s2) as H3.
  set (s3 := scoreEco p spec s2) in *.
  pose proof (scoreStock_moves p s3) as H4.
  set (s4 := scoreStock p s3) in *.
  pose proof (scoreInstallation_moves p spec s4) as H5.
  set (s5 := scoreInstallation p spec s4) in *.
  pose proof (scoreWarranty_moves p s5) as H6.
  cbn [score] in H0. lia.
Qed.

Ltac keeps f :=
  intro st; unfold f, pushReason, pushWarning, addScore;
  repeat match goal with
    | |- context [if ?c then _ else _] => destruct c
    | |- context [match ?c with Some _ => _ | None => _ end] => destruct c
    end; reflexivity.

Lemma scoreProjectType_warns : forall st,
  warns (scoreProjectType p spec st) = warns st.
Proof. keeps scoreProjectType. Qed.

Lemma scoreCertifications_warns : forall st,
  warns (scoreCertifications p spec st) = warns st.
Proof. keeps scoreCertifications. Qed.

Lemma scoreEco_warns : forall st, warns (scoreEco p spec st) = warns st.
Proof. keeps scoreEco. Qed.

Lemma scoreInstallation_warns : forall st,
  warns (scoreInstallation p spec st) = warns st.
Proof. keeps scoreInstallation. Qed.

Lemma scoreWarranty_warns : forall st, warns (scoreWarranty p st) = warns st.
Proof. keeps scoreWarranty. Qed.

Lemma scoreBeforeTimeline_warns :
  warns (scoreBeforeTimeline p spec)
  = if 0 <? stockQty p then [] else [ OutOfStock ].
Proof.
  unfold scoreBeforeTimeline.
  rewrite scoreWarranty_warns, scoreInstallation_warns.
  unfold scoreStock at 1.
  destruct (0 <? stockQty p); cbn [warns pushReason pushWarning addScore];
    rewrite scoreEco_warns, scoreCertifications_warns, scoreProjectType_warns;
    reflexivity.
Qed.

End ScorerFacts.

Lemma calculateMatchScore_warnings_eq (p : Product)
  (spec : ProjectSpecification) :
  warnings (calculateMatchScore p spec)
  = (if 0 <? stockQty p then [] else [ OutOfStock ])
    ++ (if meetsTimeline (calculateMatchScore p spec) then []
        else [ WillBeLate (Z.abs (daysMargin (calculateMatchScore p spec))) ]).
Proof.
  unfold calculateMatchScore. cbn [warnings meetsTimeline daysMargin].
  rewrite scoreBlocks_split. unfold scoreTimeline.
  destruct (tl_meetsTimeline _);
    cbn [warns pushReason pushWarning addScore];
    rewrite scoreBeforeTimeline_warns; [now rewrite app_nil_r|reflexivity].
Qed.

(** X5: the warnings of a match are exactly an out-of-stock warning when
    the stock is not positive, followed by a lateness warning, carrying the
    number of days, when the timeline is missed; so a match has no warning
    exactly when the product is in stock and meets the timeline. *)
Theorem calculateMatchScore_warnings (p : Product) (spec : ProjectSpecification) :
  let m := calculateMatchScore p spec in
  warnings m
  = (if 0 <? stockQty p then [] else [ OutOfStock ])
    ++ (if meetsTimeline m then [] else [ WillBeLate (Z.abs (daysMargin m)) ])
  /\ (warnings m = [] <-> 0 < stockQty p /\ meetsTimeline m = true).
Proof.
  cbv zeta. split; [apply calculateMatchScore_warnings_eq|].
  rewrite calculateMatchScore_warnings_eq.
  destruct (Z.ltb_spec 0 (stockQty p)) as [Hs|Hs],
    (meetsTimeline (calculateMatchScore p spec)); simpl; split;
    try discriminate; try (intros [H1 H2]; first [lia|discriminate]); auto.
Qed.

(** X6: a match that meets the timeline scores at least 65; a match that
    misses it scores at most 93, the clamp leaving its sum untouched: a
    score of 100 requires a delivery in time. *)
Theorem calculateMatchScore_timeline_bounds (p : Product)
  (spec : ProjectSpecification) :
  let m := calculateMatchScore p spec in
  (meetsTimeline m = true ->
   65 <= matchScore m
   /\ matchScore m = Z.min (score (scoreBeforeTimeline p spec) + 5) 100)
  /\ (meetsTimeline m = false ->
      50 <= matchScore m <= 93
      /\ matchScore m = score (scoreBeforeTimeline p spec) - 10).
Proof.
  cbv zeta. unfold calculateMatchScore. cbn [matchScore meetsTimeline].
  rewrite scoreBlocks_split. unfold scoreTimeline.
  pose proof (scoreBeforeTimeline_range p spec) as H.
  split; intros ->; cbn [score pushReason pushWarning addScore]; lia.
Qed.

(** X7: moving the project end date later never lowers the score of a
    product. *)
Theorem later_deadline_never_lowers_score (p : Product)
  (spec : ProjectSpecification) (endDate : Z) :
  projectEndDate spec <= endDate ->
  matchScore (calculateMatchScore p spec)
  <= matchScore (calculateMatchScore p (withEndDate spec endDate)).
Proof.
  intro Hle. unfold calculateMatchScore. cbn [matchScore].
  rewrite !scoreBlocks_split.
  change (scoreBeforeTimeline p (withEndDate spec endDate))
    with (scoreBeforeTimeline p spec).
  cbn [withEndDate projectEndDate location projectStartDate].
  pose proof (checkTimeline_meets_later p (location spec)
                (projectStartDate spec) (projectEndDate spec) endDate Hle)
    as Hm.
  unfold scoreTimeline.
  destruct (tl_meetsTimeline
              (checkTimeline p (projectEndDate spec) (location spec)
                 (projectStartDate spec))).
  - rewrite (Hm eq_refl). cbn [score pushReason pushWarning addScore]. lia.
  - destruct (tl_meetsTimeline _);
      cbn [score pushReason pushWarning addScore]; lia.
Qed.

Lemma later_deadline_never_lowers_score_witness :
  matchScore (calculateMatchScore steelProduct residentialSpec)
  <= matchScore
       (calculateMatchScore steelProduct
          (withEndDate residentialSpec (40 * msPerDay))).
Proof.
  apply (later_deadline_never_lowers_score steelProduct residentialSpec).
  vm_compute. discriminate.
Defined.

(** ** Filter chain *)

Lemma semicolon_list_empty : Js.semicolon_list "" = [].
Proof. reflexivity. Qed.

Lemma truthy_false s : Js.truthy s = false -> s = "".
Proof.
  unfold Js.truthy. destruct (String.eqb_spec s ""); [auto|discriminate].
Qed.

Section FilterChain.

Variable spec : ProjectSpecification.

Lemma filterByLocation_filter products :
  filterByLocation products (location spec)
  = filter (fun p => negb (Js.includes (Js.semicolon_list (restrictedStates p))
                             (location spec))) products.
Proof.
  unfold filterByLocation. apply filter_ext. intro p.
  destruct (Js.truthy (restrictedStates p)) eqn:E; simpl; [reflexivity|].
  apply truthy_false in E. now rewrite E.
Qed.

Lemma filterByProjectType_filter products :
  filterByProjectType products (projectType spec)
  = filter (fun p => (negb (Js.truthy (projectType spec))
                      || Js.includes
                           (Js.semicolon_list (applicableProjectTypes p))
                           (projectType spec))%bool) products.
Proof.
  unfold filterByProjectType.
  destruct (Js.truthy (projectType spec)); simpl.
  - apply filter_ext. intro p.
    destruct (Js.truthy (applicableProjectTypes p)) eqn:E; simpl; [reflexivity|].
    apply truthy_false in E. now rewrite E.
  - now rewrite filter_all.
Qed.

Lemma categoryStage_filter products :
  match requiredCategories spec with
  | Some cats =>
      if nonEmpty cats then filterByCategories products (requiredCategories spec)
      else products
  | None => products
  end
  = filter (fun p => match requiredCategories spec with
                     | Some (c :: cs) => Js.includes (c :: cs) (category p)
                     | _ => true
                     end) products.
Proof.
  destruct (requiredCategories spec) as [[|c cs]|]; simpl;
    try now rewrite filter_all.
  reflexivity.
Qed.

Lemma certificationStage_filter products :
  match requiredCertifications spec with
  | Some _ =>
      if requireCertifications spec
      then filterByCertifications products (requiredCertifications spec)
      else products
  | None => products
  end
  = filter (fun p => match requiredCertifications spec with
                     | Some certs =>
                         (negb (requireCertifications spec)
                          || forallb (Js.includes
                                        (Js.semicolon_list (certifications p)))
                               certs)%bool
                     | None => true
                     end) products.
Proof.
  destruct (requiredCertifications spec) as [certs|]; [|now rewrite filter_all].
  destruct (requireCertifications spec); simpl; [|now rewrite filter_all].
  destruct certs as [|c certs]; simpl; [now rewrite filter_all|].
  apply filter_ext. intro p.
  destruct (Js.truthy (certifications p)) eqn:E; simpl; [reflexivity|].
  apply truthy_false in E. now rewrite E.
Qed.

Lemma legalCandidates_eligible allProducts :
  legalCandidates allProducts spec = filter (eligible spec) allProducts.
Proof.
  unfold legalCandidates. cbv zeta.
  rewrite certificationStage_filter, categoryStage_filter,
    filterByProjectType_filter, filterByLocation_filter.
  rewrite !filter_filter. apply filter_ext. intro p.
  unfold eligible. now rewrite !andb_assoc.
Qed.

End FilterChain.

Lemma candidates_filter (allProducts : list Product)
  (spec : ProjectSpecification) :
  candidates allProducts spec
  = if ((ecoFriendlyPreference spec || sustainablePreference spec)
        && existsb (fun p => eligible spec p && meetsEcoPreferences spec p)
             allProducts)%bool
    then filter (fun p => eligible spec p && meetsEcoPreferences spec p)%bool
           allProducts
    else filter (eligible spec) allProducts.
Proof.
  unfold candidates. cbv zeta.
  rewrite filterByEcoPreferences_filter, legalCandidates_eligible, filter_filter.
  destruct (ecoFriendlyPreference spec || sustainablePreference spec)%bool;
    [|reflexivity].
  simpl andb.
  destruct (existsb _ allProducts) eqn:Ex.
  - apply existsb_exists in Ex. destruct Ex as [x [Hin Hx]].
    destruct (filter _ allProducts) eqn:Ef; [|reflexivity].
    assert (In x (filter (fun p => eligible spec p && meetsEcoPreferences spec p)%bool
                    allProducts)) as H by (apply filter_In; auto).
    rewrite Ef in H. destruct H.
  - destruct (filter _ allProducts) as [|y l] eqn:Ef; [reflexivity|].
    assert (In y (filter (fun p => eligible spec p && meetsEcoPreferences spec p)%bool
                    allProducts)) as H by (rewrite Ef; now left).
    apply filter_In in H. destruct H as [Hin Hy].
    assert (existsb (fun p => eligible spec p && meetsEcoPreferences spec p)%bool
              allProducts = true) by (apply existsb_exists; eauto).
    congruence.
Qed.

(** X8: the filter chain is one pass over the catalog: filters 1 to 4 keep
    exactly the eligible products, in catalog order; with an environmental
    preference set the chain keeps the eligible products that satisfy it
    when there is one, and all eligible products otherwise. *)
Theorem candidates_one_pass (allProducts : list Product)
  (spec : ProjectSpecification) :
  legalCandidates allProducts spec = filter (eligible spec) allProducts
  /\ candidates allProducts spec
     = if ((ecoFriendlyPreference spec || sustainablePreference spec)
           && existsb (fun p => eligible spec p && meetsEcoPreferences spec p)
                allProducts)%bool
       then filter (fun p => eligible spec p && meetsEcoPreferences spec p)%bool
              allProducts
       else filter (eligible spec) allProducts.
Proof.
  split; [apply legalCandidates_eligible|apply candidates_filter].
Qed.

Lemma candidates_In allProducts spec p :
  In p (candidates allProducts spec) ->
  In p allProducts /\ eligible spec p = true.
Proof.
  rewrite candidates_filter.
  destruct (_ && _)%bool; intro H; apply filter_In in H; destruct H as [Hin H].
  - apply andb_true_iff in H. tauto.
  - tauto.
Qed.

Lemma findMatchingProducts_In allProducts spec m :
  In m (findMatchingProducts allProducts spec) <->
  exists p, In p (candidates allProducts spec) /\ m = calculateMatchScore p spec.
Proof.
  unfold findMatchingProducts. split.
  - intro H. apply (Permutation_in _ (sortBy_perm _)) in H.
    apply in_map_iff in H. destruct H as [p [<- Hin]]. eauto.
  - intros [p [Hin ->]].
    apply (Permutation_in _ (Permutation_sym (sortBy_perm _))).
    apply in_map_iff. exists p. auto.
Qed.

Lemma filter_length_le {A} (f : A -> bool) l :
  (List.length (filter f l) <= List.length l)%nat.
Proof.
  induction l as [|x l IH]; simpl; [auto|]. destruct (f x); simpl; lia.
Qed.

(** X9: every result is the scoring of a product of the catalog against the
    specification, and there are at most as many results as products; an
    empty catalog gives no result. *)
Theorem findMatchingProducts_from_catalog (allProducts : list Product)
  (spec : ProjectSpecification) :
  (forall m, In m (findMatchingProducts allProducts spec) ->
             In (product m) allProducts
             /\ m = calculateMatchScore (product m) spec)
  /\ (List.length (findMatchingProducts allProducts spec)
      <= List.length allProducts)%nat
  /\ findMatchingProducts [] spec = [].
Proof.
  assert (Hlen : forall catalog,
             (List.length (findMatchingProducts catalog spec)
              <= List.length catalog)%nat).
  { intro catalog. unfold findMatchingProducts.
    rewrite (Permutation_length (sortBy_perm _)), length_map.
    rewrite candidates_filter.
    destruct (_ && _)%bool; apply filter_length_le. }
  split; [|split].
  - intros m H. apply findMatchingProducts_In in H.
    destruct H as [p [Hin ->]]. apply candidates_In in Hin.
    split; [apply Hin|reflexivity].
  - apply Hlen.
  - specialize (Hlen []). simpl in Hlen.
    destruct (findMatchingProducts [] spec); [reflexivity|simpl in Hlen; lia].
Qed.

(** X10: no result is a product restricted in the destination of the
    project. *)
Theorem findMatchingProducts_region_legal (allProducts : list Product)
  (spec : ProjectSpecification) (m : ProductMatch) :
  In m (findMatchingProducts allProducts spec) ->
  ~ In (location spec) (Js.semicolon_list (restrictedStates (product m))).
Proof.
  intro H. apply findMatchingProducts_In in H. destruct H as [p [Hin ->]].
  apply candidates_In in Hin. destruct Hin as [_ He].
  cbn [product calculateMatchScore]. unfold eligible in He.
  repeat (apply andb_true_iff in He; destruct He as [He ?]).
  apply negb_true_iff in He. intro Hin.
  apply includes_In in Hin. congruence.
Qed.

Lemma findMatchingProducts_region_legal_witness :
  ~ In "CA"
      (Js.semicolon_list
         (restrictedStates
            (product (calculateMatchScore premiumLumber residentialSpec)))).
Proof.
  apply (findMatchingProducts_region_legal
           [ lumberProduct; premiumLumber ] residentialSpec).
  vm_compute. now left.
Defined.

(** X11: every result meets the hard requirements of the project: it lists
    the project type when one is given, its category is one of the required
    categories when some are required, and it holds all the required
    certifications when certifications are required. *)
Theorem findMatchingProducts_requirements (allProducts : list Product)
  (spec : ProjectSpecification) (m : ProductMatch) :
  In m (findMatchingProducts allProducts spec) ->
  (projectType spec <> "" ->
   In (projectType spec)
     (Js.semicolon_list (applicableProjectTypes (product m))))
  /\ (forall cats, requiredCategories spec = Some cats -> cats <> [] ->
                   In (category (product m)) cats)
  /\ (forall certs, requireCertifications spec = true ->
                    requiredCertifications spec = Some certs ->
                    forall cert, In cert certs ->
                      In cert (Js.semicolon_list (certifications (product m)))).
Proof.
  intro H. apply findMatchingProducts_In in H. destruct H as [p [Hin ->]].
  apply candidates_In in Hin. destruct Hin as [_ He].
  cbn [product calculateMatchScore]. unfold eligible in He.
  apply andb_true_iff in He. destruct He as [He Hcert].
  apply andb_true_iff in He. destruct He as [He Hcat].
  apply andb_true_iff in He. destruct He as [_ Htype].
  split; [|split].
  - intro Hpt. apply includes_In.
    apply orb_true_iff in Htype. destruct Htype as [Ht|Ht]; [|exact Ht].
    apply negb_true_iff, truthy_false in Ht. contradiction.
  - intros cats Hc Hne. rewrite Hc in Hcat.
    destruct cats as [|c cs]; [contradiction|]. now apply includes_In.
  - intros certs Hrq Hc cert Hin. rewrite Hc, Hrq in Hcert. simpl in Hcert.
    rewrite forallb_forall in Hcert. apply includes_In. now apply Hcert.
Qed.

Lemma findMatchingProducts_requirements_witness :
  In "Residential"
    (Js.semicolon_list
       (applicableProjectTypes
          (product (calculateMatchScore steelProduct residentialSpec)))).
Proof.
  refine (proj1 (findMatchingProducts_requirements
                   [ lumberProduct; steelProduct ] residentialSpec
                   (calculateMatchScore steelProduct residentialSpec) _) _).
  - vm_compute. right. now left.
  - discriminate.
Defined.

(** X12: when an environmental preference is set and some eligible product
    of the catalog satisfies it, every result satisfies it. *)
Theorem findMatchingProducts_eco_respected (allProducts : list Product)
  (spec : ProjectSpecification) (q : Product) (m : ProductMatch) :
  (ecoFriendlyPreference spec || sustainablePreference spec)%bool = true ->
  In q allProducts -> eligible spec q = true ->
  meetsEcoPreferences spec q = true ->
  In m (findMatchingProducts allProducts spec) ->
  meetsEcoPreferences spec (product m) = true.
Proof.
  intros Hpref Hq He Hm H. apply findMatchingProducts_In in H.
  destruct H as [p [Hin ->]]. cbn [product calculateMatchScore].
  rewrite candidates_filter, Hpref in Hin. simpl andb in Hin.
  replace (existsb _ allProducts) with true in Hin.
  - apply filter_In in Hin. destruct Hin as [_ Hin].
    apply andb_true_iff in Hin. tauto.
  - symmetry. apply existsb_exists. exists q. split; [assumption|].
    now rewrite He, Hm.
Qed.

Lemma findMatchingProducts_eco_respected_witness :
  meetsEcoPreferences ecoSpec
    (product (calculateMatchScore premiumLumber ecoSpec)) = true.
Proof.
  apply (findMatchingProducts_eco_respected
           [ lumberProduct; premiumLumber ] ecoSpec premiumLumber);
    try reflexivity.
  - right. now left.
  - vm_compute. now left.
Defined.

(** ** The project type bonus of the results *)

Section Substrings.

Lemma append_assoc (a b c : string) :
  String.append (String.append a b) c = String.append a (String.append b c).
Proof. induction a as [|x a IH]; simpl; [reflexivity|now rewrite IH]. Qed.

Lemma append_empty_r (a : string) : String.append a "" = a.
Proof. induction a as [|x a IH]; simpl; [reflexivity|now rewrite IH]. Qed.

Lemma prefix_append (w post : string) :
  String.prefix w (String.append w post) = true.
Proof.
  induction w as [|x w IH]; simpl; [destruct post; reflexivity|].
  destruct (ascii_dec x x); [exact IH|contradiction].
Qed.

Lemma str_includes_unfold hay needle :
  Js.str_includes hay needle
  = if String.prefix needle hay then true
    else match hay with
         | EmptyString => false
         | String _ rest => Js.str_includes rest needle
         end.
Proof. destruct hay; reflexivity. Qed.

Lemma Substring_refl s : Substring s s.
Proof. exists "", "". simpl. now rewrite append_empty_r. Qed.

Lemma Substring_trans a b c : Substring a b -> Substring b c -> Substring a c.
Proof.
  intros [p1 [q1 ->]] [p2 [q2 ->]].
  exists (String.append p2 p1), (String.append q1 q2).
  now rewrite !append_assoc.
Qed.

Lemma Substring_cons x w s : Substring w s -> Substring w (String x s).
Proof. intros [p [q ->]]. now exists (String x p), q. Qed.

Lemma str_includes_Substring s w : Substring w s -> Js.str_includes s w = true.
Proof.
  intros [pre [post ->]]. induction pre as [|x pre IH].
  - simpl String.append. rewrite str_includes_unfold.
    now rewrite prefix_append.
  - simpl String.append. rewrite str_includes_unfold.
    destruct (String.prefix _ _); [reflexivity|exact IH].
Qed.

(** The pieces of a split occur in the string, the first one at its start. *)
Lemma split_pieces sep s :
  (exists w ws post, Js.split sep s = w :: ws /\ s = String.append w post)
  /\ forall w, In w (Js.split sep s) -> Substring w s.
Proof.
  induction s as [|x s [[w0 [ws [post [E Hs]]]] IH]].
  - split.
    + now exists "", [], "".
    + intros w [<-|[]]. apply Substring_refl.
  - simpl. destruct (Ascii.eqb x sep).
    + split.
      * now exists "", (Js.split sep s), (String x s).
      * intros w [<-|Hin]; [now exists "", (String x s)|].
        apply Substring_cons. now apply IH.
    + rewrite E. split.
      * exists (String x w0), ws, post. split; [reflexivity|].
        simpl. now rewrite <- Hs.
      * intros w [<-|Hin].
        -- exists "", post. simpl. now rewrite <- Hs.
        -- apply Substring_cons. apply IH. rewrite E. now right.
Qed.

Lemma trim_start_suffix s : exists pre, s = String.append pre (Js.trim_start s).
Proof.
  induction s as [|x s [pre IH]]; [now exists ""|].
  simpl. destruct (Js.is_space x).
  - exists (String x pre). simpl. now rewrite <- IH.
  - now exists "".
Qed.

Lemma trim_end_prefix s : exists post, s = String.append (Js.trim_end s) post.
Proof.
  induction s as [|x s [post IH]]; [now exists ""|].
  simpl. destruct (Js.trim_end s) as [|y t] eqn:E.
  - destruct (Js.is_space x).
    + now exists (String x s).
    + exists s. reflexivity.
  - exists post. simpl. simpl in IH. now rewrite <- IH.
Qed.

Lemma trim_Substring s : Substring (Js.trim s) s.
Proof.
  unfold Js.trim. destruct (trim_start_suffix s) as [pre Hpre].
  destruct (trim_end_prefix (Js.trim_start s)) as [post Hpost].
  exists pre, post. now rewrite <- Hpost.
Qed.

Lemma semicolon_list_Substring s w :
  In w (Js.semicolon_list s) -> Substring w s.
Proof.
  unfold Js.semicolon_list. intro H. apply filter_In in H.
  destruct H as [H _]. apply in_map_iff in H. destruct H as [piece [<- Hin]].
  eapply Substring_trans; [apply trim_Substring|].
  now apply (proj2 (split_pieces ";" s)).
Qed.

End Substrings.

(** A product kept by the filter chain always earns the project type
    bonus: the type test of the scorer searches the raw list text, in which a
    listed type occurs, and in which the empty type is always found. *)
Lemma eligible_projectType_bonus spec p :
  eligible spec p = true ->
  Js.str_includes (applicableProjectTypes p) (projectType spec) = true.
Proof.
  intro He. unfold eligible in He.
  apply andb_true_iff in He. destruct He as [He _].
  apply andb_true_iff in He. destruct He as [He _].
  apply andb_true_iff in He. destruct He as [_ Ht].
  apply orb_true_iff in Ht. destruct Ht as [Ht|Ht].
  - apply negb_true_iff, truthy_false in Ht. rewrite Ht.
    rewrite str_includes_unfold.
    destruct (applicableProjectTypes p); reflexivity.
  - apply str_includes_Substring, semicolon_list_Substring.
    now apply includes_In.
Qed.

Lemma scoreBeforeTimeline_with_type p spec :
  Js.str_includes (applicableProjectTypes p) (projectType spec) = true ->
  70 <= score (scoreBeforeTimeline p spec).
Proof.
  intro Ht. unfold scoreBeforeTimeline.
  set (s0 := scoreBase _).
  assert (H0 : score s0 = 60) by reflexivity.
  assert (H1 : score (scoreProjectType p spec s0) = score s0 + 10)
    by (unfold scoreProjectType; rewrite Ht; reflexivity).
  set (s1 := scoreProjectType p spec s0) in *.
  pose proof (scoreCertifications_moves p spec s1) as H2.
  set (s2 := scoreCertifications p spec s1) in *.
  pose proof (scoreEco_moves p spec s2) as H3.
  set (s3 := scoreEco p spec s2) in *.
  pose proof (scoreStock_moves p s3) as H4.
  set (s4 := scoreStock p s3) in *.
  pose proof (scoreInstallation_moves p spec s4) as H5.
  set (s5 := scoreInstallation p spec s4) in *.
  pose proof (scoreWarranty_moves p s5) as H6.
  lia.
Qed.

(** X13: every result of [findMatchingProducts] carries the project type
    bonus, so it scores at least 60, and at least 75 when it meets the
    timeline. *)
Theorem findMatchingProducts_score_floor (allProducts : list Product)
  (spec : ProjectSpecification) (m : ProductMatch) :
  In m (findMatchingProducts allProducts spec) ->
  Js.str_includes (applicableProjectTypes (product m)) (projectType spec) = true
  /\ 60 <= matchScore m
  /\ (meetsTimeline m = true -> 75 <= matchScore m).
Proof.
  intro H. apply findMatchingProducts_In in H. destruct H as [p [Hin ->]].
  apply candidates_In in Hin. destruct Hin as [_ He].
  pose proof (eligible_projectType_bonus spec p He) as Ht.
  pose proof (scoreBeforeTimeline_with_type p spec Ht) as Hs.
  pose proof (scoreBeforeTimeline_range p spec) as Hr.
  split; [exact Ht|].
  unfold calculateMatchScore. cbn [matchScore meetsTimeline product].
  rewrite scoreBlocks_split. unfold scoreTimeline.
  destruct (tl_meetsTimeline _); cbn [score pushReason pushWarning addScore];
    split; intros; try discriminate; lia.
Qed.

Lemma findMatchingProducts_score_floor_witness :
  60 <= matchScore (calculateMatchScore steelProduct residentialSpec).
Proof.
  refine (proj1 (proj2 (findMatchingProducts_score_floor
                          [ lumberProduct; steelProduct ] residentialSpec
                          (calculateMatchScore steelProduct residentialSpec) _))).
  vm_compute. right. now left.
Defined.

(** ** Analyzer: the risks and what they report *)

Section RiskReport.

Variables (ms : list ProductMatch) (spec : ProjectSpecification).

(** The analysis built from a grouping, field by field. *)
Lemma buildAnalysis_report d :
  let a := buildAnalysis ms spec d in
  risks a
  = (match maxBudget spec with
     | Some b => if (negb (b =? 0) && (b <? estimatedTotalCost a))%bool
                 then [ CostExceedsBudget (estimatedTotalCost a) b ] else []
     | None => []
     end)
    ++ (if nonEmpty (lateMatches ms)
        then [ CannotMeetTimeline (List.length (lateMatches ms)) ] else [])
    ++ (match requiredCategories spec with
        | Some cats =>
            let missing :=
              filter (fun c => negb (Js.includes
                                       (Dict.keys (categoryBreakdown a)) c))
                cats in
            if nonEmpty missing then [ NoProductsForCategories missing ] else []
        | None => []
        end)
  /\ recommendations a = map recommendationFor (risks a)
  /\ feasible (timelineAnalysis a) = negb (nonEmpty (lateMatches ms))
  /\ specification a = spec
  /\ recommendedProducts a = ms.
Proof.
  cbv zeta. unfold buildAnalysis, lateMatches.
  destruct (fold_left breakdownStep d ([], 0)) as [breakdown total].
  cbv zeta.
  set (a0 := {| specification := spec; recommendedProducts := ms;
                estimatedTotalCost := total; categoryBreakdown := breakdown;
                timelineAnalysis :=
                  {| feasible := true; criticalPath := []; concerns := [] |};
                risks := []; recommendations := [] |}).
  assert (Ht : estimatedTotalCost
                 (checkMissing spec (checkLate ms (checkBudget spec a0)))
               = total).
  { destruct (checkMissing_keeps spec (checkLate ms (checkBudget spec a0)))
      as [_ [-> _]].
    destruct (checkLate_keeps ms (checkBudget spec a0)) as [_ ->].
    destruct (checkBudget_keeps spec a0) as [_ [-> _]]. reflexivity. }
  assert (Hb : categoryBreakdown
                 (checkMissing spec (checkLate ms (checkBudget spec a0)))
               = breakdown).
  { destruct (checkMissing_keeps spec (checkLate ms (checkBudget spec a0)))
      as [-> _].
    destruct (checkLate_keeps ms (checkBudget spec a0)) as [-> _].
    destruct (checkBudget_keeps spec a0) as [-> _]. reflexivity. }
  rewrite Ht, Hb. clear Ht Hb.
  unfold checkMissing, checkLate, checkBudget, budgetTruthy. subst a0.
  cbn [estimatedTotalCost].
  destruct (maxBudget spec) as [b|];
    [destruct (negb (b =? 0) && (b <? total))%bool|];
    cbn [risks recommendations categoryBreakdown estimatedTotalCost
         timelineAnalysis specification recommendedProducts];
    (destruct (nonEmpty (filter (fun m => negb (meetsTimeline m)) ms));
     cbn [risks recommendations categoryBreakdown estimatedTotalCost
          timelineAnalysis specification recommendedProducts feasible];
     (destruct (requiredCategories spec) as [cats|];
      [destruct (nonEmpty (filter _ cats))|];
      cbn [risks recommendations categoryBreakdown estimatedTotalCost
           timelineAnalysis specification recommendedProducts feasible];
      repeat split)).
Qed.

Lemma found_categories a c :
  analyzeProject ms spec = Returned a ->
  Js.includes (Dict.keys (categoryBreakdown a)) c = existsb (inCategory c) ms.
Proof.
  intro Ha. destruct (analyzeProject_breakdown ms spec a Ha) as [_ [Hget _]].
  specialize (Hget c). unfold firstOfCategory in Hget.
  destruct (existsb (inCategory c) ms) eqn:Ex.
  - apply includes_In. apply existsb_exists in Ex. destruct Ex as [m [Hin Hm]].
    destruct (find (inCategory c) ms) as [best|] eqn:Ef.
    + eapply getOwn_Some_In. rewrite Hget. reflexivity.
    + eapply find_none in Ef; [|exact Hin]. congruence.
  - destruct (Js.includes (Dict.keys (categoryBreakdown a)) c) eqn:Ei;
      [|reflexivity].
    apply includes_In, In_keys_getOwn in Ei. destruct Ei as [e He].
    rewrite Hget in He.
    destruct (find (inCategory c) ms) as [best|] eqn:Ef; [|discriminate].
    apply find_some in Ef. destruct Ef as [Hin Hm].
    assert (existsb (inCategory c) ms = true)
      by (apply existsb_exists; eauto).
    congruence.
Qed.

Lemma analyzeProject_report a :
  analyzeProject ms spec = Returned a ->
  risks a
  = (match maxBudget spec with
     | Some b => if (negb (b =? 0) && (b <? estimatedTotalCost a))%bool
                 then [ CostExceedsBudget (estimatedTotalCost a) b ] else []
     | None => []
     end)
    ++ (if nonEmpty (lateMatches ms)
        then [ CannotMeetTimeline (List.length (lateMatches ms)) ] else [])
    ++ (match requiredCategories spec with
        | Some cats =>
            if nonEmpty (uncoveredCategories cats ms)
            then [ NoProductsForCategories (uncoveredCategories cats ms) ]
            else []
        | None => []
        end)
  /\ recommendations a = map recommendationFor (risks a)
  /\ feasible (timelineAnalysis a) = negb (nonEmpty (lateMatches ms)).
Proof.
  intro Ha. pose proof Ha as Hb. apply analyzeProject_Returned in Hb.
  destruct Hb as [d [_ E]].
  destruct (buildAnalysis_report d) as [Hr [Hrec [Hf _]]].
  rewrite <- E in Hr, Hrec, Hf. split; [|split; assumption].
  rewrite Hr. do 2 f_equal.
  destruct (requiredCategories spec) as [cats|]; [|reflexivity].
  cbv zeta. unfold uncoveredCategories.
  rewrite (filter_ext _ (fun c => negb (existsb (inCategory c) ms)));
    [reflexivity|].
  intro c. now rewrite (found_categories a c Ha).
Qed.

End RiskReport.

(** X14: the analysis reports a budget risk exactly when the budget is set
    and not 0 and the estimated total cost exceeds it; the risk carries both
    figures. *)
Theorem analyzeProject_budget_risk (ms : list ProductMatch)
  (spec : ProjectSpecification) (a : ProjectAnalysis) (cost budget : Z) :
  analyzeProject ms spec = Returned a ->
  (In (CostExceedsBudget cost budget) (risks a) <->
   maxBudget spec = Some budget /\ budget <> 0
   /\ cost = estimatedTotalCost a /\ budget < cost).
Proof.
  intro Ha. destruct (analyzeProject_report ms spec a Ha) as [-> _].
  rewrite !in_app_iff. split.
  - intros [H|[H|H]].
    + destruct (maxBudget spec) as [b|]; [|destruct H].
      destruct (Z.eqb_spec b 0) as [Hz|Hz]; simpl in H; [destruct H|].
      destruct (Z.ltb_spec b (estimatedTotalCost a)) as [Hl|Hl];
        simpl in H; [|destruct H].
      destruct H as [H|[]]. injection H as <- <-. auto.
    + destruct (nonEmpty _); [destruct H as [H|[]]; discriminate|destruct H].
    + destruct (requiredCategories spec); [|destruct H].
      destruct (nonEmpty _); [destruct H as [H|[]]; discriminate|destruct H].
  - intros (-> & Hb & -> & Hlt). left.
    destruct (Z.eqb_spec budget 0); [contradiction|].
    destruct (Z.ltb_spec budget (estimatedTotalCost a)); [|lia].
    now left.
Qed.

Lemma analyzeProject_budget_risk_witness :
  exists a,
    analyzeProject
      (findMatchingProducts [ lumberProduct; steelProduct ] residentialSpec)
      residentialSpec = Returned a
    /\ In (CostExceedsBudget 350 200) (risks a).
Proof.
  eexists. split; [vm_compute; reflexivity|].
  eapply (analyzeProject_budget_risk
            (findMatchingProducts [ lumberProduct; steelProduct ]
               residentialSpec) residentialSpec);
    [vm_compute; reflexivity|].
  repeat split; first [discriminate|reflexivity].
Defined.

(** X15: the timeline of the analysis is feasible exactly when every match
    meets the timeline, and a timeline risk is reported exactly when some
    match misses it, with the number of such matches. *)
Theorem analyzeProject_timeline_risk (ms : list ProductMatch)
  (spec : ProjectSpecification) (a : ProjectAnalysis) :
  analyzeProject ms spec = Returned a ->
  (feasible (timelineAnalysis a) = true <->
   forall m, In m ms -> meetsTimeline m = true)
  /\ forall n, In (CannotMeetTimeline n) (risks a) <->
               n = List.length (lateMatches ms) /\ n <> 0%nat.
Proof.
  intro Ha. destruct (analyzeProject_report ms spec a Ha) as [-> [_ ->]].
  split.
  - rewrite negb_true_iff, nonEmpty_false. unfold lateMatches. split.
    + intros H m Hin. destruct (meetsTimeline m) eqn:E; [reflexivity|].
      assert (In m (filter (fun m => negb (meetsTimeline m)) ms)) as Hm
        by (apply filter_In; rewrite E; auto).
      rewrite H in Hm. destruct Hm.
    + intro H. destruct (filter _ ms) as [|x l] eqn:E; [reflexivity|].
      assert (In x (filter (fun m => negb (meetsTimeline m)) ms)) as Hx
        by (rewrite E; now left).
      apply filter_In in Hx. destruct Hx as [Hin Hx].
      rewrite (H x Hin) in Hx. discriminate.
  - intro n. rewrite !in_app_iff. split.
    + intros [H|[H|H]].
      * destruct (maxBudget spec); [|destruct H].
        destruct (_ && _)%bool; [destruct H as [H|[]]; discriminate|destruct H].
      * destruct (lateMatches ms) eqn:E; simpl in H; [destruct H|].
        destruct H as [H|[]]. injection H as <-. split; [reflexivity|].
        discriminate.
      * destruct (requiredCategories spec); [|destruct H].
        destruct (nonEmpty _); [destruct H as [H|[]]; discriminate|destruct H].
    + intros [-> Hn]. right. left.
      destruct (lateMatches ms); [contradiction|]. now left.
Qed.

Lemma analyzeProject_timeline_risk_witness :
  exists a,
    analyzeProject
      (findMatchingProducts [ lumberProduct; steelProduct ] residentialSpec)
      residentialSpec = Returned a
    /\ In (CannotMeetTimeline 1) (risks a).
Proof.
  eexists. split; [vm_compute; reflexivity|].
  eapply (analyzeProject_timeline_risk
            (findMatchingProducts [ lumberProduct; steelProduct ]
               residentialSpec) residentialSpec);
    [vm_compute; reflexivity|].
  split; [reflexivity|discriminate].
Defined.

(** X16: with required categories, a missing-category risk is reported
    exactly when some required category has no match, and it lists exactly
    those categories, in the order of the requirement. *)
Theorem analyzeProject_missing_categories (ms : list ProductMatch)
  (spec : ProjectSpecification) (a : ProjectAnalysis) (cats : list string) :
  analyzeProject ms spec = Returned a ->
  requiredCategories spec = Some cats ->
  (forall missing,
     In (NoProductsForCategories missing) (risks a) <->
     missing = uncoveredCategories cats ms /\ missing <> [])
  /\ forall c, In c (uncoveredCategories cats ms) <->
               In c cats /\ forall m, In m ms -> category (product m) <> c.
Proof.
  intros Ha Hc. destruct (analyzeProject_report ms spec a Ha) as [-> _].
  rewrite Hc. split.
  - intro missing. rewrite !in_app_iff. split.
    + intros [H|[H|H]].
      * destruct (maxBudget spec); [|destruct H].
        destruct (_ && _)%bool; [destruct H as [H|[]]; discriminate|destruct H].
      * destruct (nonEmpty _); [destruct H as [H|[]]; discriminate|destruct H].
      * destruct (uncoveredCategories cats ms) eqn:E; simpl in H; [destruct H|].
        destruct H as [H|[]]. injection H as <-. split; [reflexivity|].
        discriminate.
    + intros [-> Hne]. right. right.
      destruct (uncoveredCategories cats ms); [contradiction|]. now left.
  - intro c. unfold uncoveredCategories. rewrite filter_In, negb_true_iff.
    split; intros [Hin H]; (split; [exact Hin|]).
    + intros m Hm Hcat.
      assert (existsb (inCategory c) ms = true) as Hex.
      { apply existsb_exists. exists m. split; [exact Hm|].
        unfold inCategory. rewrite Hcat. apply String.eqb_refl. }
      congruence.
    + destruct (existsb (inCategory c) ms) eqn:E; [|reflexivity].
      apply existsb_exists in E. destruct E as [m [Hm Hcat]].
      apply String.eqb_eq in Hcat. exfalso. exact (H m Hm Hcat).
Qed.

Lemma analyzeProject_missing_categories_witness :
  exists a,
    analyzeProject (findMatchingProducts [ lumberProduct ] lumberSteelSpec)
      lumberSteelSpec = Returned a
    /\ In (NoProductsForCategories [ "Steel" ]) (risks a).
Proof.
  eexists. split; [vm_compute; reflexivity|].
  eapply (analyzeProject_missing_categories
            (findMatchingProducts [ lumberProduct ] lumberSteelSpec)
            lumberSteelSpec);
    [vm_compute; reflexivity|reflexivity|].
  split; [reflexivity|discriminate].
Defined.

(** X17: the analysis holds one recommendation per risk, in the order of the
    risks: at most one budget risk first, then at most one timeline risk,
    then at most one missing-category risk. *)
Theorem analyzeProject_recommendations (ms : list ProductMatch)
  (spec : ProjectSpecification) (a : ProjectAnalysis) :
  analyzeProject ms spec = Returned a ->
  recommendations a = map recommendationFor (risks a)
  /\ risks a
     = filter isBudgetRisk (risks a) ++ filter isTimelineRisk (risks a)
       ++ filter isMissingCategoryRisk (risks a)
  /\ (List.length (filter isBudgetRisk (risks a)) <= 1)%nat
  /\ (List.length (filter isTimelineRisk (risks a)) <= 1)%nat
  /\ (List.length (filter isMissingCategoryRisk (risks a)) <= 1)%nat.
Proof.
  intro Ha. destruct (analyzeProject_report ms spec a Ha) as [Hr [Hrec _]].
  split; [exact Hrec|]. rewrite Hr.
  destruct (maxBudget spec) as [b|]; [destruct (_ && _)%bool|];
    (destruct (nonEmpty (lateMatches ms));
     (destruct (requiredCategories spec) as [cats|];
      [destruct (nonEmpty _)|]; simpl; repeat split; lia)).
Qed.

Lemma analyzeProject_recommendations_witness :
  exists a,
    analyzeProject
      (findMatchingProducts [ lumberProduct; steelProduct ] residentialSpec)
      residentialSpec = Returned a
    /\ recommendations a = map recommendationFor (risks a).
Proof.
  eexists. split; [vm_compute; reflexivity|].
  eapply (analyzeProject_recommendations
            (findMatchingProducts [ lumberProduct; steelProduct ]
               residentialSpec) residentialSpec).
  vm_compute. reflexivity.
Defined.

(** X18: [analyzeProject] throws exactly when some match has a category
    whose name every object inherits from [Object.prototype]; otherwise it
    returns an analysis of the given list and specification. *)
Theorem analyzeProject_throws_iff (ms : list ProductMatch)
  (spec : ProjectSpecification) :
  (analyzeProject ms spec = TypeError <->
   exists m, In m ms /\ Dict.inherited (category (product m)) = true)
  /\ ((forall m, In m ms -> Dict.inherited (category (product m)) = false) ->
      exists a, analyzeProject ms spec = Returned a
                /\ specification a = spec /\ recommendedProducts a = ms).
Proof.
  assert (Hret : (forall m, In m ms ->
                            Dict.inherited (category (product m)) = false) ->
                 exists a, analyzeProject ms spec = Returned a
                           /\ specification a = spec
                           /\ recommendedProducts a = ms).
  { intro H. destruct (analyzeProject_returns ms spec H) as [d [_ Ha]].
    exists (buildAnalysis ms spec d). split; [exact Ha|].
    destruct (buildAnalysis_report ms spec d) as [_ [_ [_ [H1 H2]]]]. auto. }
  split; [|exact Hret]. split.
  - intro Ht.
    destruct (existsb (fun m => Dict.inherited (category (product m))) ms) eqn:E.
    + apply existsb_exists in E. exact E.
    + exfalso. destruct Hret as [a [Ha _]]; [|congruence].
      intros m Hin.
      destruct (Dict.inherited (category (product m))) eqn:Ei; [|reflexivity].
      assert (existsb (fun m => Dict.inherited (category (product m))) ms = true)
        by (apply existsb_exists; eauto).
      congruence.
  - intros [m [Hin Hm]]. eapply analyzeProject_throws; eauto.
Qed.

(** ** Analyzer: matches behind the first of their category *)

Lemma forEachM_app {A S} (body : S -> A -> JsResult S) l1 l2 s :
  forEachM body (l1 ++ l2) s = bind (forEachM body l1 s) (forEachM body l2).
Proof.
  revert s. induction l1 as [|x l1 IH]; intro s; simpl; [reflexivity|].
  destruct (body s x); simpl; [apply IH|reflexivity].
Qed.

Lemma entriesOf_push d k arr m :
  Dict.getOwn k d = Some arr -> arr <> [] ->
  entriesOf (Dict.set k (arr ++ [ m ]) d) = entriesOf d.
Proof.
  induction d as [|[k' w] d IH]; simpl; [discriminate|].
  destruct (String.eqb_spec k k') as [->|Hk]; intros H Hne.
  - injection H as ->. destruct arr; [contradiction|reflexivity].
  - simpl. now rewrite IH.
Qed.

Lemma group_more d0 extra : forall d,
  entriesOf d = entriesOf d0 ->
  (forall m, In m extra ->
             exists arr, Dict.getOwn (category (product m)) d = Some arr
                         /\ arr <> []) ->
  exists d', forEachM groupStep extra d = Returned d'
             /\ entriesOf d' = entriesOf d0.
Proof.
  induction extra as [|m extra IH]; intros d He Hkeys; simpl; [eauto|].
  destruct (Hkeys m (or_introl eq_refl)) as [arr [Hg Hne]].
  unfold groupStep at 1. rewrite Hg. simpl.
  apply IH.
  - now rewrite (entriesOf_push d _ arr m Hg Hne).
  - intros x Hx. destruct (Hkeys x (or_intror Hx)) as [arr' [Hg' Hne']].
    rewrite getOwn_set.
    destruct (String.eqb_spec (category (product x)) (category (product m))).
    + exists (arr ++ [ m ]). split; [reflexivity|]. destruct arr; discriminate.
    + eauto.
Qed.

(** X19: matches added behind a list, in categories the list already
    covers, change neither the category breakdown nor the estimated total
    cost: only the first match of each category counts. *)
Theorem analyzeProject_ignores_later_matches (ms extra : list ProductMatch)
  (spec : ProjectSpecification) (a : ProjectAnalysis) :
  analyzeProject ms spec = Returned a ->
  (forall m, In m extra ->
             exists m0, In m0 ms
                        /\ category (product m0) = category (product m)) ->
  exists a',
    analyzeProject (ms ++ extra) spec = Returned a'
    /\ categoryBreakdown a' = categoryBreakdown a
    /\ estimatedTotalCost a' = estimatedTotalCost a.
Proof.
  intros Ha Hcov. unfold analyzeProject in Ha.
  destruct (groupByCategory ms) as [d|] eqn:Ed; [|discriminate].
  simpl in Ha. injection Ha as <-.
  pose proof (groupByCategory_Grouped ms d Ed) as [Hnd Hget].
  assert (Hkeys : forall m, In m extra ->
                    exists arr, Dict.getOwn (category (product m)) d = Some arr
                                /\ arr <> []).
  { intros m Hm. destruct (Hcov m Hm) as [m0 [Hin Hc]].
    rewrite Hget. cbv zeta.
    assert (In m0 (filter (inCategory (category (product m))) ms)) as Hf.
    { apply filter_In. split; [exact Hin|].
      unfold inCategory. rewrite Hc. apply String.eqb_refl. }
    destruct (filter (inCategory (category (product m))) ms) as [|y l];
      [destruct Hf|].
    exists (y :: l). split; [reflexivity|discriminate]. }
  destruct (group_more d extra d eq_refl Hkeys) as [d' [Hd' He]].
  assert (Eg : groupByCategory (ms ++ extra) = Returned d').
  { unfold groupByCategory in *. rewrite forEachM_app, Ed. exact Hd'. }
  exists (buildAnalysis (ms ++ extra) spec d').
  split; [unfold analyzeProject; now rewrite Eg|].
  pose proof (groupByCategory_Grouped _ _ Eg) as [Hnd' _].
  destruct (buildAnalysis_breakdown (ms ++ extra) spec d' Hnd') as [-> ->].
  destruct (buildAnalysis_breakdown ms spec d Hnd) as [-> ->].
  now rewrite He.
Qed.

Lemma analyzeProject_ignores_later_matches_witness :
  exists a',
    analyzeProject
      ([ calculateMatchScore premiumLumber residentialSpec ]
       ++ [ calculateMatchScore lumberProduct residentialSpec ])
      residentialSpec = Returned a'
    /\ estimatedTotalCost a' = 180.
Proof.
  destruct (analyzeProject_ignores_later_matches
              [ calculateMatchScore premiumLumber residentialSpec ]
              [ calculateMatchScore lumberProduct residentialSpec ]
              residentialSpec
              (buildAnalysis
                 [ calculateMatchScore premiumLumber residentialSpec ]
                 residentialSpec
                 [ ("Lumber",
                    [ calculateMatchScore premiumLumber residentialSpec ]) ])
              eq_refl) as [a' [Ha [_ Hc]]].
  - intros m [<-|[]]. eexists. split; [now left|reflexivity].
  - exists a'. split; [exact Ha|]. rewrite Hc. reflexivity.
Defined.

(** ** CSV lines *)

Section CsvLines.

Lemma str_includes_char c s :
  Js.str_includes s (String c EmptyString) = hasChar c s.
Proof.
  induction s as [|x s IH]; [reflexivity|].
  rewrite str_includes_unfold. simpl.
  destruct (ascii_dec c x) as [->|Hne].
  - rewrite Ascii.eqb_refl. destruct s; reflexivity.
  - rewrite IH. destruct (Ascii.eqb_spec x c); [congruence|reflexivity].
Qed.

Lemma appendChar_append cur x v :
  String.append (appendChar cur x) v = String.append cur (String x v).
Proof. unfold appendChar. now rewrite append_assoc. Qed.

(** Outside quotes, characters other than the comma and the quote are
    collected in the current cell. *)
Lemma parseCSVLoop_plain v : forall rest values cur,
  hasChar comma v = false -> hasChar dquote v = false ->
  parseCSVLoop (String.append v rest) values cur false
  = parseCSVLoop rest values (String.append cur v) false.
Proof.
  induction v as [|x v IH]; intros rest values cur Hc Hq; simpl.
  - now rewrite append_empty_r.
  - simpl in Hc, Hq. apply orb_false_iff in Hc, Hq.
    destruct Hc as [Hc Hc'], Hq as [Hq Hq'].
    rewrite Hq, Hc. simpl. rewrite IH by assumption.
    now rewrite appendChar_append.
Qed.

(** Inside quotes, the doubled quotes of a cell are read back as single
    quotes, up to the closing quote. *)
Lemma parseCSVLoop_quoted v : forall rest values cur,
  startsWithQuote rest = false ->
  parseCSVLoop (String.append (doubleQuotes v) (String dquote rest)) values cur true
  = parseCSVLoop rest values (String.append cur v) false.
Proof.
  induction v as [|x v IH]; intros rest values cur Hr.
  - simpl. rewrite append_empty_r.
    destruct rest as [|c rest]; [reflexivity|].
    simpl in Hr. rewrite Hr. reflexivity.
  - simpl doubleQuotes. destruct (Ascii.eqb_spec x dquote) as [->|Hx].
    + simpl. rewrite IH by assumption. now rewrite appendChar_append.
    + simpl. destruct (Ascii.eqb_spec x dquote); [contradiction|].
      rewrite andb_false_r. rewrite IH by assumption.
      now rewrite appendChar_append.
Qed.

Lemma parseCSVLoop_open l values cur :
  parseCSVLoop (String dquote l) values cur false
  = parseCSVLoop l values cur true.
Proof. destruct l; reflexivity. Qed.

Lemma parseCSVLoop_escaped v rest values :
  startsWithQuote rest = false ->
  parseCSVLoop (String.append (escapeValue v) rest) values EmptyString false
  = parseCSVLoop rest values v false.
Proof.
  intro Hr. unfold escapeValue. rewrite !str_includes_char.
  destruct (hasChar comma v || hasChar dquote v || hasChar newline v)%bool eqn:E.
  - simpl String.append. rewrite parseCSVLoop_open.
    unfold appendChar. rewrite append_assoc. simpl String.append.
    now rewrite parseCSVLoop_quoted.
  - apply orb_false_iff in E. destruct E as [E _].
    apply orb_false_iff in E. destruct E as [Hc Hq].
    now rewrite parseCSVLoop_plain.
Qed.

Lemma parseCSVLoop_row cells : forall cell values,
  parseCSVLoop (csvRow (cell :: cells)) values EmptyString false
  = values ++ cell :: cells.
Proof.
  unfold csvRow. induction cells as [|next cells IH]; intros cell values.
  - simpl. rewrite <- (append_empty_r (escapeValue cell)).
    rewrite parseCSVLoop_escaped by reflexivity. reflexivity.
  - change (String.concat (String comma "") (map escapeValue (cell :: next :: cells)))
      with (String.append (escapeValue cell)
              (String comma
                 (String.concat (String comma "")
                    (map escapeValue (next :: cells))))).
    rewrite parseCSVLoop_escaped by reflexivity.
    change (parseCSVLoop (String comma ?l) values cell false)
      with (parseCSVLoop l (values ++ [ cell ]) EmptyString false).
    rewrite IH. now rewrite <- app_assoc.
Qed.

Lemma parseCSVLoop_unquoted line : forall values cur,
  hasChar dquote line = false ->
  parseCSVLoop line values cur false
  = values ++ ontoHead cur (Js.split comma line).
Proof.
  induction line as [|x line IH]; intros values cur Hq.
  - simpl. now rewrite append_empty_r.
  - simpl in Hq. apply orb_false_iff in Hq. destruct Hq as [Hx Hq].
    destruct (proj1 (split_pieces comma line)) as [w [ws [post [E _]]]].
    simpl. rewrite Hx. destruct (Ascii.eqb x comma); simpl.
    + rewrite IH by assumption. rewrite E, append_empty_r.
      rewrite <- app_assoc. reflexivity.
    + rewrite IH by assumption. rewrite E. simpl.
      now rewrite appendChar_append.
Qed.

End CsvLines.

(** X20: a line written by [generateCSV] is read back by [parseCSVLine]
    cell for cell, whatever commas, quotes or other characters the cells
    hold; the row without cells is written as the empty line, which reads
    as one empty cell. *)
Theorem parseCSVLine_csvRow (cells : list string) :
  (cells <> [] -> parseCSVLine (csvRow cells) = cells)
  /\ parseCSVLine (csvRow []) = [ EmptyString ].
Proof.
  split; [|reflexivity].
  destruct cells as [|cell cells]; [congruence|]. intros _.
  unfold parseCSVLine. now rewrite parseCSVLoop_row.
Qed.

Lemma parseCSVLoop_nonempty line :
  (forall values cur q, parseCSVLoop line values cur q <> [])
  /\ (forall x values cur q, parseCSVLoop (String x line) values cur q <> []).
Proof.
  assert (Hnil : forall (values : list string) cur, values ++ [ cur ] <> []).
  { intros values cur. destruct values; discriminate. }
  induction line as [|y line [IH1 IH2]].
  - split; [intros; apply Hnil|].
    intros x values cur q. simpl.
    destruct (Ascii.eqb x dquote); [apply Hnil|].
    destruct (Ascii.eqb x comma && negb q)%bool; apply Hnil.
  - split; [apply IH2|].
    intros x values cur q.
    change (parseCSVLoop (String x (String y line)) values cur q)
      with (if Ascii.eqb x dquote
            then if (q && Ascii.eqb y dquote)%bool
                 then parseCSVLoop line values (appendChar cur dquote) q
                 else parseCSVLoop (String y line) values cur (negb q)
            else if (Ascii.eqb x comma && negb q)%bool
                 then parseCSVLoop (String y line) (values ++ [ cur ])
                        EmptyString q
                 else parseCSVLoop (String y line) values (appendChar cur x) q).
    destruct (Ascii.eqb x dquote).
    + destruct (q && Ascii.eqb y dquote)%bool; [apply IH1|apply IH2].
    + destruct (Ascii.eqb x comma && negb q)%bool; apply IH2.
Qed.

(** X21: on a line without quote characters [parseCSVLine] is the split
    at the commas; and every line, quoted or not, has at least one cell. *)
Theorem parseCSVLine_unquoted (line : string) :
  (hasChar dquote line = false -> parseCSVLine line = Js.split comma line)
  /\ parseCSVLine line <> [].
Proof.
  split.
  - intro Hq. unfold parseCSVLine.
    rewrite parseCSVLoop_unquoted by assumption. simpl.
    destruct (proj1 (split_pieces comma line)) as [w [ws [post [-> _]]]].
    reflexivity.
  - apply parseCSVLoop_nonempty.
Qed.

Lemma parseCSVLine_unquoted_witness :
  parseCSVLine "P1000,2x4,Lumber,,12.5" = [ "P1000"; "2x4"; "Lumber"; ""; "12.5" ].
Proof.
  exact (proj1 (parseCSVLine_unquoted "P1000,2x4,Lumber,,12.5") eq_refl).
Defined.

(** ** CSV cells and records *)

(** X22: in the six numeric columns a cell is always read as a number, 0
    when it is blank or [parseFloat] gives [NaN]; in the other columns of the
    product file a cell is read as its text without the surrounding white
    space. *)
Theorem parseValue_columns (Num : Type) (zero : Num)
  (parseFloat : string -> option Num) (header value : string) :
  (In header numericHeaders ->
   parseValue Num zero parseFloat header value
   = CellNumber (if String.eqb (Js.trim value) "" then zero
                 else match parseFloat (Js.trim value) with
                      | Some n => n
                      | None => zero
                      end))
  /\ (In header textHeaders ->
      parseValue Num zero parseFloat header value = CellString (Js.trim value)).
Proof.
  split; intro H; simpl in H;
    repeat (destruct H as [<-|H];
            [ unfold parseValue; cbv zeta;
              destruct (String.eqb_spec (Js.trim value) "") as [E|E];
              [try rewrite E; reflexivity
              |destruct (parseFloat (Js.trim value)); reflexivity]
            | ]);
    contradiction.
Qed.

Section Records.

Variable Num : Type.
Variable zero : Num.
Variable parseFloat : string -> option Num.





End Records.


(** ** The generated file read back *)

Section RoundTrip.

Lemma hasChar_append c a b :
  hasChar c (String.append a b) = (hasChar c a || hasChar c b)%bool.
Proof.
  induction a as [|x a IH]; simpl; [reflexivity|].
  rewrite IH. now rewrite orb_assoc.
Qed.

Lemma hasChar_doubleQuotes v : hasChar newline (doubleQuotes v) = hasChar newline v.
Proof.
  induction v as [|x v IH]; simpl; [reflexivity|].
  destruct (Ascii.eqb_spec x dquote) as [->|Hx]; simpl; now rewrite IH.
Qed.

Lemma hasChar_escapeValue v :
  hasChar newline v = false -> hasChar newline (escapeValue v) = false.
Proof.
  intro H. unfold escapeValue.
  destruct (_ || _)%bool; [|exact H].
  unfold appendChar. simpl. rewrite hasChar_append, hasChar_doubleQuotes, H.
  reflexivity.
Qed.

Lemma hasChar_csvRow row :
  Forall (fun cell => hasChar newline cell = false) row ->
  hasChar newline (csvRow row) = false.
Proof.
  unfold csvRow. induction 1 as [|cell row Hc Hrow IH]; [reflexivity|].
  simpl. destruct (map escapeValue row) eqn:E.
  - now apply hasChar_escapeValue.
  - rewrite hasChar_append, hasChar_escapeValue by assumption.
    simpl. simpl in IH. exact IH.
Qed.

Lemma csvRow_has_comma a b row : hasChar comma (csvRow (a :: b :: row)) = true.
Proof.
  unfold csvRow. simpl. rewrite hasChar_append. simpl.
  now rewrite orb_true_r.
Qed.

Lemma trim_start_keeps c s :
  Js.is_space c = false -> hasChar c s = true ->
  hasChar c (Js.trim_start s) = true.
Proof.
  intro Hc. induction s as [|x s IH]; simpl; [auto|].
  destruct (Js.is_space x) eqn:Ex; [|auto].
  destruct (Ascii.eqb_spec x c) as [->|Hx]; [congruence|]. exact IH.
Qed.

Lemma trim_end_nonempty c s :
  Js.is_space c = false -> hasChar c s = true -> Js.trim_end s <> EmptyString.
Proof.
  intro Hc. induction s as [|x s IH]; simpl; [discriminate|].
  intro H. destruct (Js.trim_end s) eqn:E; [|discriminate].
  destruct (Ascii.eqb_spec x c) as [->|Hx].
  - rewrite Hc. discriminate.
  - simpl in H. exfalso. now apply IH.
Qed.

Lemma nonblank c s :
  Js.is_space c = false -> hasChar c s = true ->
  Js.truthy (Js.trim s) = true.
Proof.
  intros Hc H. unfold Js.truthy, Js.trim. apply negb_true_iff.
  apply String.eqb_neq. apply (trim_end_nonempty c); [exact Hc|].
  now apply trim_start_keeps.
Qed.

Lemma split_line l rest :
  hasChar newline l = false ->
  Js.split newline (String.append (appendChar l newline) rest)
  = l :: Js.split newline rest.
Proof.
  unfold appendChar. induction l as [|x l IH]; intro H.
  - reflexivity.
  - simpl in H. apply orb_false_iff in H. destruct H as [Hx H].
    simpl. rewrite Hx. simpl in IH. now rewrite IH.
Qed.

Lemma split_linesText ls :
  Forall (fun l => hasChar newline l = false) ls ->
  Js.split newline (linesText ls) = ls ++ [ EmptyString ].
Proof.
  induction 1 as [|l ls Hl Hls IH]; [reflexivity|].
  simpl. rewrite split_line by assumption. now rewrite IH.
Qed.

Lemma generateCSV_linesText rows :
  generateCSV rows
  = linesText (String.concat (String comma EmptyString) csvHeaders
               :: map csvRow rows).
Proof.
  assert (H : forall init,
             fold_left (fun csv row =>
                          String.append csv (appendChar (csvRow row) newline))
               rows init
             = String.append init (linesText (map csvRow rows))).
  { induction rows as [|row rows IH]; intro init; simpl.
    - now rewrite append_empty_r.
    - rewrite IH. now rewrite append_assoc. }
  unfold generateCSV. rewrite H. reflexivity.
Qed.

End RoundTrip.

Lemma filter_keeps_all {A} (f : A -> bool) l :
  Forall (fun x => f x = true) l -> filter f l = l.
Proof.
  induction 1 as [|x l Hx Hl IH]; simpl; [reflexivity|].
  now rewrite Hx, IH.
Qed.

Lemma wellFormedRow_line row :
  wellFormedRow row ->
  hasChar newline (csvRow row) = false
  /\ Js.truthy (Js.trim (csvRow row)) = true
  /\ parseCSVLine (csvRow row) = row.
Proof.
  intros [Hlen Hcells]. split; [now apply hasChar_csvRow|].
  destruct row as [|a [|b row]]; try discriminate.
  split.
  - apply (nonblank comma); [reflexivity|apply csvRow_has_comma].
  - unfold parseCSVLine. now rewrite parseCSVLoop_row.
Qed.

(** X24: a file written by [generateCSV] is read back by [parseCSV] row
    for row: when every row has one cell per column and no cell holds a line
    feed, the parsed data is the list of the records of the rows, in order,
    under the column names of the generator. *)
Theorem parseCSV_generateCSV (Num : Type) (zero : Num)
  (parseFloat : string -> option Num) (rows : list (list string)) :
  Forall wellFormedRow rows ->
  parseCSV Num zero parseFloat (generateCSV rows)
  = map (parseRow Num zero parseFloat csvHeaders) rows.
Proof.
  intro Hrows. rewrite generateCSV_linesText. unfold parseCSV.
  set (headerLine := String.concat (String comma EmptyString) csvHeaders).
  assert (Hh1 : hasChar newline headerLine = false) by reflexivity.
  assert (Hh2 : Js.truthy (Js.trim headerLine) = true) by reflexivity.
  assert (Hh3 : parseCSVLine headerLine = csvHeaders) by reflexivity.
  clearbody headerLine.
  assert (Hnl : Forall (fun l => hasChar newline l = false)
                  (headerLine :: map csvRow rows)).
  { constructor; [exact Hh1|]. apply Forall_map.
    eapply Forall_impl; [|exact Hrows]. intros row H.
    apply (wellFormedRow_line row H). }
  assert (Hnb : Forall (fun l => Js.truthy (Js.trim l) = true)
                  (headerLine :: map csvRow rows)).
  { constructor; [exact Hh2|]. apply Forall_map.
    eapply Forall_impl; [|exact Hrows]. intros row H.
    apply (wellFormedRow_line row H). }
  rewrite split_linesText by exact Hnl.
  rewrite filter_app, filter_keeps_all by exact Hnb.
  change (filter (fun line => Js.truthy (Js.trim line)) [ EmptyString ])
    with (@nil string).
  rewrite app_nil_r. cbv zeta. rewrite Hh3.
  clear Hnl Hnb. induction Hrows as [|row rows Hrow Hrows IH]; [reflexivity|].
  cbn [map flat_map]. rewrite IH.
  destruct (wellFormedRow_line row Hrow) as [_ [_ ->]].
  destruct Hrow as [-> _]. now rewrite Nat.eqb_refl.
Qed.

Lemma parseCSV_generateCSV_witness :
  parseCSV Z 0 (fun _ => None)
    (generateCSV
       [ [ "P1000"; "2x4"; "Lumber"; "BuildCo"; "12.5"; "ea"; "1"; "40"; "5";
           "CA"; "3.2"; "96x4x2"; "NY;HI"; "Residential;Commercial"; "";
           "Yes"; "No"; "Yes"; "10"; "Class A"; "Easy";
           "BuildCo 2x4 - Premium quality lumber product, kiln dried." ] ])
  = map (parseRow Z 0 (fun _ => None) csvHeaders)
      [ [ "P1000"; "2x4"; "Lumber"; "BuildCo"; "12.5"; "ea"; "1"; "40"; "5";
          "CA"; "3.2"; "96x4x2"; "NY;HI"; "Residential;Commercial"; "";
          "Yes"; "No"; "Yes"; "10"; "Class A"; "Easy";
          "BuildCo 2x4 - Premium quality lumber product, kiln dried." ] ].
Proof.
  apply (parseCSV_generateCSV Z 0 (fun _ => None)).
  repeat constructor.
Defined.

(** A text without any non-blank line holds no data, and neither does a
    text with the header line only; a data line whose number of cells differs
    from the number of columns is skipped. *)
Lemma parseCSV_skips (Num : Type) (zero : Num)
  (parseFloat : string -> option Num) (csvText : string) :
  (filter (fun line => Js.truthy (Js.trim line)) (Js.split newline csvText) = []
   -> parseCSV Num zero parseFloat csvText = [])
  /\ (forall header,
        filter (fun line => Js.truthy (Js.trim line)) (Js.split newline csvText)
        = [ header ] ->
        parseCSV Num zero parseFloat csvText = [])
  /\ (forall header lines,
        filter (fun line => Js.truthy (Js.trim line)) (Js.split newline csvText)
        = header :: lines ->
        parseCSV Num zero parseFloat csvText
        = map (parseRow Num zero parseFloat (parseCSVLine header))
            (filter (fun values =>
                       Nat.eqb (List.length values)
                         (List.length (parseCSVLine header)))
               (map parseCSVLine lines))).
Proof.
  unfold parseCSV. split; [|split].
  - intros ->. reflexivity.
  - intros header ->. reflexivity.
  - intros header lines ->. cbv zeta.
    induction lines as [|line lines IH]; [reflexivity|].
    cbn [map flat_map filter]. rewrite IH.
    destruct (Nat.eqb _ _); reflexivity.
Qed.

(** ** The views of the results *)

Section SortByKey.

Context {A : Type}.
Variable key : A -> Z.

Let cmp (a b : A) : Z := key a - key b.
Let ordered (a b : A) : Prop := key a <= key b.

Lemma insertBy_key_perm x l : Permutation (insertBy cmp x l) (x :: l).
Proof.
  induction l as [|y l IH]; simpl; [reflexivity|].
  destruct (cmp x y <=? 0); [reflexivity|].
  rewrite IH. apply perm_swap.
Qed.

Lemma sortBy_key_perm l : Permutation (sortBy cmp l) l.
Proof.
  induction l as [|x l IH]; simpl; [reflexivity|].
  rewrite insertBy_key_perm. now constructor.
Qed.

Lemma insertBy_key_sorted x l :
  StronglySorted ordered l -> StronglySorted ordered (insertBy cmp x l).
Proof.
  induction 1 as [|y l Hs IH Hall]; simpl.
  - repeat constructor.
  - unfold cmp at 1.
    destruct (Z.leb_spec (key x - key y) 0) as [Hle|Hgt].
    + constructor; [now constructor|].
      constructor; [unfold ordered; lia|].
      eapply Forall_impl; [|exact Hall].
      unfold ordered; intros; lia.
    + constructor; [assumption|].
      eapply Permutation_Forall; [symmetry; apply insertBy_key_perm|].
      constructor; [unfold ordered; lia|assumption].
Qed.

Lemma sortBy_key_sorted l : StronglySorted ordered (sortBy cmp l).
Proof.
  induction l as [|x l IH]; simpl; [constructor|].
  now apply insertBy_key_sorted.
Qed.

(** A list already in order is left as it is. *)
Lemma sortBy_key_fixed l : StronglySorted ordered l -> sortBy cmp l = l.
Proof.
  induction 1 as [|x l Hs IH Hall]; [reflexivity|].
  simpl. rewrite IH. destruct l as [|y l]; [reflexivity|].
  simpl. inversion Hall as [|? ? Hxy _]; subst.
  unfold cmp, ordered in *.
  destruct (Z.leb_spec (key x - key y) 0); [reflexivity|lia].
Qed.

End SortByKey.

Lemma insertBy_ext {A} (c1 c2 : A -> A -> Z) x l :
  (forall a b, c1 a b = c2 a b) -> insertBy c1 x l = insertBy c2 x l.
Proof.
  intro H. induction l as [|y l IH]; simpl; [reflexivity|].
  now rewrite H, IH.
Qed.

Lemma sortBy_ext {A} (c1 c2 : A -> A -> Z) l :
  (forall a b, c1 a b = c2 a b) -> sortBy c1 l = sortBy c2 l.
Proof.
  intro H. induction l as [|x l IH]; simpl; [reflexivity|].
  rewrite IH. now apply insertBy_ext.
Qed.

Lemma sortBy_descending {A} (key : A -> Z) l :
  sortBy (fun a b => key b - key a) l
  = sortBy (fun a b => (fun x => - key x) a - (fun x => - key x) b) l.
Proof. apply sortBy_ext. intros; lia. Qed.

Lemma StronglySorted_impl {A} (R S : A -> A -> Prop) l :
  (forall a b, R a b -> S a b) -> StronglySorted R l -> StronglySorted S l.
Proof.
  intros H. induction 1 as [|x l Hs IH Hall]; constructor; [assumption|].
  eapply Forall_impl; [|exact Hall]. auto.
Qed.

Lemma StronglySorted_filter {A} (R : A -> A -> Prop) (f : A -> bool) l :
  StronglySorted R l -> StronglySorted R (filter f l).
Proof.
  induction 1 as [|x l Hs IH Hall]; simpl; [constructor|].
  destruct (f x); [|assumption]. constructor; [assumption|].
  rewrite Forall_forall in *. intros y Hy. apply filter_In in Hy.
  apply Hall. tauto.
Qed.

(** X25: [sortProducts] only reorders: its result holds the same products,
    ordered by non-increasing score, by non-decreasing price, by
    non-increasing price or by non-decreasing delivery date according to the
    key, and is the list itself for any other key. *)
Theorem sortProducts_orders (sortKey : string) (products : list ProductMatch) :
  Permutation (sortProducts sortKey products) products
  /\ (sortKey = "score" ->
      StronglySorted (fun a b => matchScore b <= matchScore a)
        (sortProducts sortKey products))
  /\ (sortKey = "price-low" ->
      StronglySorted (fun a b => price (product a) <= price (product b))
        (sortProducts sortKey products))
  /\ (sortKey = "price-high" ->
      StronglySorted (fun a b => price (product b) <= price (product a))
        (sortProducts sortKey products))
  /\ (sortKey = "delivery" ->
      StronglySorted (fun a b => estimatedDelivery a <= estimatedDelivery b)
        (sortProducts sortKey products))
  /\ (sortKey <> "score" -> sortKey <> "price-low" ->
      sortKey <> "price-high" -> sortKey <> "delivery" ->
      sortProducts sortKey products = products).
Proof.
  split; [|repeat split].
  - unfold sortProducts.
    destruct (String.eqb sortKey "score");
      [rewrite sortBy_descending; apply sortBy_key_perm|].
    destruct (String.eqb sortKey "price-low"); [apply sortBy_key_perm|].
    destruct (String.eqb sortKey "price-high");
      [rewrite sortBy_descending; apply sortBy_key_perm|].
    destruct (String.eqb sortKey "delivery"); [apply sortBy_key_perm|].
    reflexivity.
  - intros ->. unfold sortProducts. simpl. rewrite sortBy_descending.
    eapply StronglySorted_impl; [|apply sortBy_key_sorted].
    simpl. intros; lia.
  - intros ->. unfold sortProducts. simpl. apply sortBy_key_sorted.
  - intros ->. unfold sortProducts. simpl. rewrite sortBy_descending.
    eapply StronglySorted_impl; [|apply sortBy_key_sorted].
    simpl. intros; lia.
  - intros ->. unfold sortProducts. simpl. apply sortBy_key_sorted.
  - intros H1 H2 H3 H4. unfold sortProducts.
    apply String.eqb_neq in H1, H2, H3, H4. now rewrite H1, H2, H3, H4.
Qed.

(** X26: the default view keeps the ranking: sorting by score the products
    of any category selection of a [findMatchingProducts] result gives the
    selection back, in the order of the matcher. *)
Theorem default_view_keeps_ranking (allProducts : list Product)
  (spec : ProjectSpecification) (selectedCategory : string) :
  sortProducts "score"
    (displayProducts (findMatchingProducts allProducts spec) selectedCategory)
  = displayProducts (findMatchingProducts allProducts spec) selectedCategory.
Proof.
  unfold sortProducts. simpl. rewrite sortBy_descending.
  apply sortBy_key_fixed.
  assert (Hs : StronglySorted
                 (fun a b : ProductMatch => - matchScore a <= - matchScore b)
                 (findMatchingProducts allProducts spec)).
  { eapply StronglySorted_impl; [|apply sortBy_sorted].
    unfold scoreDesc. intros; lia. }
  unfold displayProducts. destruct (negb _); [|exact Hs].
  now apply StronglySorted_filter.
Qed.

(** X27: the product the analysis picks for a category is the first one
    the dashboard lists for it, and a category without listed product has no
    entry; for no selection or the empty name the dashboard lists
    nothing. *)
Theorem breakdown_is_first_listed (ms : list ProductMatch)
  (spec : ProjectSpecification) (a : ProjectAnalysis) (c : string) :
  analyzeProject ms spec = Returned a ->
  (c <> "" ->
   Dict.getOwn c (categoryBreakdown a)
   = option_map entryOf
       (hd_error (getProductsForCategory (recommendedProducts a) (Some c))))
  /\ getProductsForCategory (recommendedProducts a) None = []
  /\ getProductsForCategory (recommendedProducts a) (Some "") = [].
Proof.
  intro Ha. split; [|split; reflexivity].
  intro Hc. destruct (analyzeProject_breakdown ms spec a Ha) as [_ [-> _]].
  pose proof Ha as Hb. apply analyzeProject_Returned in Hb.
  destruct Hb as [d [_ ->]].
  destruct (buildAnalysis_report ms spec d) as [_ [_ [_ [_ ->]]]].
  unfold getProductsForCategory, Js.truthy.
  destruct (String.eqb_spec c ""); [contradiction|]. simpl negb. cbv iota.
  unfold firstOfCategory. rewrite <- head_filter_find.
  unfold inCategory. destruct (filter _ ms); reflexivity.
Qed.

Lemma breakdown_is_first_listed_witness :
  exists a,
    analyzeProject
      (findMatchingProducts [ lumberProduct; premiumLumber ] residentialSpec)
      residentialSpec = Returned a
    /\ Dict.getOwn "Lumber" (categoryBreakdown a)
       = option_map entryOf
           (hd_error (getProductsForCategory (recommendedProducts a)
                        (Some "Lumber"))).
Proof.
  eexists. split; [vm_compute; reflexivity|].
  eapply (proj1 (breakdown_is_first_listed
                   (findMatchingProducts [ lumberProduct; premiumLumber ]
                      residentialSpec) residentialSpec _ "Lumber" _)).
  discriminate.
  Unshelve. vm_compute. reflexivity.
Defined.

(** ** The stock filter *)

(** X28: [filterByStock] leaves the list as it is when not asked for
    in-stock products only, and otherwise keeps exactly the products with a
    positive stock, in order; a product it keeps is never scored with an
    out-of-stock warning. *)
Theorem filterByStock_in_stock (products : list Product)
  (spec : ProjectSpecification) :
  filterByStock products false = products
  /\ (forall p, In p (filterByStock products true) <->
                In p products /\ 0 < stockQty p)
  /\ forall p, In p (filterByStock products true) ->
               ~ In OutOfStock (warnings (calculateMatchScore p spec)).
Proof.
  split; [reflexivity|]. unfold filterByStock. simpl negb. cbv iota.
  split.
  - intro p. rewrite filter_In, Z.ltb_lt. reflexivity.
  - intros p Hp. apply filter_In in Hp. destruct Hp as [_ Hs].
    rewrite calculateMatchScore_warnings_eq, Hs. intro H.
    apply in_app_iff in H. destruct H as [[]|H].
    destruct (meetsTimeline (calculateMatchScore p spec)); [destruct H|].
    destruct H as [H|[]]. discriminate.
Qed.
